(** * PlayPath JavaScript SDK: a shallow embedding of [playpath-sdk.js]

    The development follows the source file from the bottom up: the
    JavaScript data the SDK handles, the [PlayPathError] class, the
    transport [_request], the resource clients [ragChat], [getItem] and
    [createItem], the utility [formatChatHistory] and the chat session made
    by [createChatSession].  The theorems about them come last. *)

From stdpp Require Import base list strings pretty.
From Stdlib Require Import ZArith Lia.

Local Set Warnings "-register-all".
Local Open Scope string_scope.
Local Open Scope Z_scope.
Local Open Scope list_scope.

(** ** JavaScript data *)

(** The data the SDK reads and builds: parsed JSON, parameter objects and
    the [undefined] a property read gives for a missing key.  An object
    is the list of its own properties in insertion order; its properties
    are data, none is a function.  Numbers are restricted to integers:
    [VNum n] stands for the Number [n], for an integer [n] that a double
    represents exactly. *)
Inductive value : Type :=
| VUndefined
| VNull
| VBool (b : bool)
| VNum (n : Z)
| VStr (s : string)
| VArr (elems : list value)
| VObj (props : list (string * value)).

(** [!!v] in JavaScript. *)
Definition truthy (v : value) : bool :=
  match v with
  | VUndefined | VNull => false
  | VBool b => b
  | VNum n => negb (Z.eqb n 0)
  | VStr s => negb (String.eqb s "")
  | VArr _ | VObj _ => true
  end.

Definition nullish (v : value) : bool :=
  match v with
  | VUndefined | VNull => true
  | _ => false
  end.

(** [a || b] on values that are already evaluated. *)
Definition js_or (a b : value) : value := if truthy a then a else b.

(** Own property of an object literal; the first binding of a key is the
    live one. *)
Fixpoint own_prop (k : string) (props : list (string * value)) : option value :=
  match props with
  | [] => None
  | (k', v) :: rest => if String.eqb k k' then Some v else own_prop k rest
  end.

(** What a JavaScript program throws at the SDK or the SDK throws itself:
    a native error of the runtime ([TypeError], [SyntaxError], ...) or a
    [PlayPathError]. *)
Record native_error : Type := NativeError {
  err_name : string;
  err_message : string
}.

(** The [data] argument of [PlayPathError]: parsed JSON, or the caught
    error object. *)
Inductive payload : Type :=
| DataValue (v : value)
| DataError (e : native_error).

(** [class PlayPathError extends Error]: [status = null] is [None], and
    the default [data = null] is [DataValue VNull]. *)
Record PlayPathError : Type := mkPlayPathError {
  message : string;
  status : option Z;
  data : payload
}.

Inductive thrown : Type :=
| ThrowPlayPath (e : PlayPathError)
| ThrowNative (e : native_error).

(** Completion of an evaluation: a value, or a thrown error (for an
    [async] function: the promise resolves, or rejects). *)
Inductive outcome (A : Type) : Type :=
| Normal (a : A)
| Throw (e : thrown).
Arguments Normal {A} a.
Arguments Throw {A} e.

Definition TypeError (msg : string) : thrown :=
  ThrowNative {| err_name := "TypeError"; err_message := msg |}.

#[global] Instance outcome_ret : MRet outcome := fun A a => Normal a.
#[global] Instance outcome_bind : MBind outcome := fun A B k o =>
  match o with
  | Normal a => k a
  | Throw e => Throw e
  end.
#[global] Instance outcome_fmap : FMap outcome := fun A B f o =>
  match o with
  | Normal a => Normal (f a)
  | Throw e => Throw e
  end.

(** The double nearest to a positive integer, ties to even; an integer up
    to 2^53 is its own double. *)
Definition nearest_double (m : Z) : Z :=
  let sh := Z.log2 m - 52 in
  if sh <=? 0 then m
  else
    let q := Z.shiftr m sh in
    let rest := m - Z.shiftl q sh in
    let half := Z.shiftl 1 (sh - 1) in
    let q' :=
      if (half <? rest) || ((rest =? half) && Z.odd q) then q + 1 else q in
    Z.shiftl q' sh.

Definition decimal_length (m : Z) : Z := Z.of_nat (String.length (pretty m)).

(** Of two digit strings [s] for the same scale [p], the one whose value
    [s * p] is closer to [x], the even one on a tie. *)
Definition closest (x s p : Z) (best : option Z) : option Z :=
  match best with
  | None => Some s
  | Some b =>
      let db := Z.abs (b * p - x) in
      let ds := Z.abs (s * p - x) in
      if (ds <? db) || ((ds =? db) && Z.even s) then Some s else Some b
  end.

(** The [k]-digit integer [s] with [s * 10^(n-k)] rounding to the double
    [x], if there is one. *)
Definition digits_at (x k n : Z) : option Z :=
  let p := 10 ^ (n - k) in
  let s0 := x / p in
  let ok s :=
    (10 ^ (k - 1) <=? s) && (s <? 10 ^ k) && (nearest_double (s * p) =? x) in
  let best := if ok s0 then closest x s0 p None else None in
  if ok (s0 + 1) then closest x (s0 + 1) p best else best.

(** The integers [s], [k] and [n] of [Number::toString]: as few digits
    [k] as possible, counted up from the given [k]. *)
Fixpoint shortest_digits (fuel : nat) (x k d : Z) : option (Z * Z * Z) :=
  match fuel with
  | O => None
  | S fuel' =>
      match digits_at x k d with
      | Some s => Some (s, k, d)
      | None =>
          match digits_at x k (d + 1) with
          | Some s => Some (s, k, d + 1)
          | None => shortest_digits fuel' x (k + 1) d
          end
      end
  end.

(** [Number::toString] of a positive integer: all its digits up to 2^53;
    above, the shortest digits that denote the same double, followed by
    zeros when there are at most 21 digits in all and in exponent form
    otherwise. *)
Definition positive_text (x : Z) : string :=
  if x <=? 2 ^ 53 then pretty x
  else
    match shortest_digits 17 x 1 (decimal_length x) with
    | None => pretty x
    | Some (s, k, n) =>
        let ds := pretty s in
        if n <=? 21
        then ds +:+ String.concat "" (replicate (Z.to_nat (n - k)) "0")
        else
          match ds with
          | String c rest =>
              String c (if k =? 1 then "" else "." +:+ rest)
              +:+ "e+" +:+ pretty (n - 1)
          | EmptyString => ds
          end
    end.

Definition number_text (n : Z) : string :=
  if n <? 0 then "-" +:+ positive_text (- n) else positive_text n.

(** The string a value converts to (ECMAScript ToString), as a template
    literal and the [Error] constructor apply it.  An array is joined with
    commas, [null] and [undefined] elements counting as empty.  An object
    gives "[object Object]" through [Object.prototype.toString], unless it
    has a [toString] property of its own: that is data, not a function,
    and neither it nor [valueOf] yields a primitive, so the conversion
    throws. *)
Fixpoint ToString (v : value) : outcome string :=
  match v with
  | VUndefined => Normal "undefined"
  | VNull => Normal "null"
  | VBool true => Normal "true"
  | VBool false => Normal "false"
  | VNum n => Normal (number_text n)
  | VStr s => Normal s
  | VArr elems =>
      (fix join (l : list value) : outcome string :=
         match l with
         | [] => Normal ""
         | e :: rest =>
             match (if nullish e then Normal "" else ToString e) with
             | Throw err => Throw err
             | Normal text =>
                 match rest with
                 | [] => Normal text
                 | _ :: _ =>
                     match join rest with
                     | Throw err => Throw err
                     | Normal texts => Normal (text +:+ "," +:+ texts)
                     end
                 end
             end
         end) elems
  | VObj props =>
      match own_prop "toString" props with
      | Some _ => Throw (TypeError "Cannot convert object to primitive value")
      | None => Normal "[object Object]"
      end
  end.

(** [new PlayPathError(message, status, data)]: [super(message)] stores
    the message converted to a string, and no message for [undefined],
    which leaves the empty message of [Error.prototype]. *)
Definition new_PlayPathError (msg : value) (st : option Z) (d : payload)
  : outcome PlayPathError :=
  match msg with
  | VUndefined => Normal {| message := ""; status := st; data := d |}
  | _ =>
      text ← ToString msg;
      Normal {| message := text; status := st; data := d |}
  end.

(** "null" or "undefined", as an error message names the value. *)
Definition nullish_text (v : value) : string :=
  match v with
  | VNull => "null"
  | _ => "undefined"
  end.

(** [v.k] for the property names the SDK reads ([message], [history],
    [system_prompt], [title], [text], [error], [reply], [role],
    [content]); none of them is defined on a built-in prototype, so only
    an object can have one.  Reading a property of [null] or [undefined]
    throws. *)
Definition get_prop (v : value) (k : string) : outcome value :=
  match v with
  | VUndefined | VNull =>
      Throw (TypeError ("Cannot read properties of " +:+ nullish_text v +:+
                        " (reading '" +:+ k +:+ "')"))
  | VObj props => Normal (default VUndefined (own_prop k props))
  | _ => Normal VUndefined
  end.

(** [JSON.stringify(v)].  The text is represented by the JSON document it
    denotes: a property whose value is [undefined] is left out, an
    [undefined] array element becomes [null], and [undefined] itself has
    no text. *)
Fixpoint JSON_stringify (v : value) : option value :=
  match v with
  | VUndefined => None
  | VArr elems =>
      Some (VArr (map (fun e => default VNull (JSON_stringify e)) elems))
  | VObj props =>
      Some (VObj (omap (fun kv => pair (fst kv) <$> JSON_stringify (snd kv)) props))
  | _ => Some v
  end.

(** [a || b] where reading [a] can throw; [b] is used only when [a] is
    falsy. *)
Definition or_else (a b : outcome value) : outcome value :=
  x ← a; if truthy x then mret x else b.

(** [Array.prototype.map] with a callback that can throw: elements are
    visited in order and the first throw ends the loop. *)
Fixpoint array_map (f : value -> outcome value) (elems : list value)
  : outcome (list value) :=
  match elems with
  | [] => Normal []
  | x :: rest => y ← f x; ys ← array_map f rest; mret (y :: ys)
  end.

(** [v.map(f)]: only an array has a [map] method. *)
Definition call_map (v : value) (f : value -> outcome value) : outcome value :=
  match v with
  | VArr elems => VArr <$> array_map f elems
  | VUndefined | VNull =>
      Throw (TypeError ("Cannot read properties of " +:+ nullish_text v +:+
                        " (reading 'map')"))
  | _ => Throw (TypeError "messages.map is not a function")
  end.

(** ** Utility methods *)

(** The callback of [formatChatHistory]:
    [msg => ({ role: msg.role || 'user',
               text: msg.text || msg.message || msg.content || '' })] *)
Definition formatTurn (msg : value) : outcome value :=
  role ← or_else (get_prop msg "role") (Normal (VStr "user"));
  text ← or_else
           (or_else
              (or_else (get_prop msg "text") (get_prop msg "message"))
              (get_prop msg "content"))
           (Normal (VStr ""));
  mret (VObj [("role", role); ("text", text)]).

(** [formatChatHistory(messages)] *)
Definition formatChatHistory (messages : value) : outcome value :=
  call_map messages formatTurn.

(** ** The network and the object store *)

(** What [fetch] is called with: the URL and the [config] object. *)
Record request : Type := mkRequest {
  req_url : string;
  req_method : option string;
  req_headers : list (string * string);
  req_body : option value
}.

(** What [fetch] resolves to: the status code, and what [response.json()]
    gives, the parsed body or the error of reading or parsing it. *)
Record response : Type := mkResponse {
  resp_status : Z;
  resp_json : native_error + value
}.

(** [response.ok]: the status is in the range 200-299. *)
Definition resp_ok (r : response) : bool :=
  (200 <=? resp_status r) && (resp_status r <=? 299).

Inductive fetch_result : Type :=
| FetchRejects (e : native_error)
| FetchResolves (r : response).

Definition addr : Type := nat.

(** The mutable world of a run: the objects and arrays allocated so far,
    each addressed by its position, and the requests issued so far, oldest
    first.  An array cell holds the addresses of its elements, so two
    arrays can share an element object.  Parsed JSON and strings are held
    by value in object fields. *)
Record world : Type := mkWorld {
  objects : list (list (string * value));
  arrays : list (list addr);
  requests : list request
}.

Definition empty_world : world :=
  {| objects := []; arrays := []; requests := [] |}.

(** Effectful code: a state transformer on the world that completes
    normally or throws. *)
Definition M (A : Type) : Type := world -> outcome A * world.

#[global] Instance M_ret : MRet M := fun A a w => (Normal a, w).
#[global] Instance M_bind : MBind M := fun A B k m w =>
  match m w with
  | (Normal a, w') => k a w'
  | (Throw e, w') => (Throw e, w')
  end.

Definition throw {A : Type} (e : thrown) : M A := fun w => (Throw e, w).

Definition lift {A : Type} (o : outcome A) : M A := fun w => (o, w).

(** [throw new PlayPathError(...)]: the error made is thrown, or what its
    construction throws. *)
Definition throw_new {A : Type} (made : outcome PlayPathError) : M A :=
  match made with
  | Normal e => throw (ThrowPlayPath e)
  | Throw err => throw err
  end.

(** [try { body } catch (error) { handler }] *)
Definition try_catch {A : Type} (body : M A) (handler : thrown -> M A) : M A :=
  fun w =>
    match body w with
    | (Normal a, w') => (Normal a, w')
    | (Throw e, w') => handler e w'
    end.

Definition object_at (w : world) (a : addr) : list (string * value) :=
  default [] (objects w !! a).

Definition array_at (w : world) (a : addr) : list addr :=
  default [] (arrays w !! a).

(** The value an array of objects denotes in the current world. *)
Definition array_value (w : world) (a : addr) : list value :=
  map (fun o => VObj (object_at w o)) (array_at w a).

(** An object literal [{ k1: v1, ... }]. *)
Definition new_object (props : list (string * value)) : M addr := fun w =>
  (Normal (length (objects w)),
   {| objects := objects w ++ [props]; arrays := arrays w;
      requests := requests w |}).

(** An array literal with the given elements. *)
Definition new_array (elems : list addr) : M addr := fun w =>
  (Normal (length (arrays w)),
   {| objects := objects w; arrays := arrays w ++ [elems];
      requests := requests w |}).

(** [[...a]]: a new array with the elements of [a]. *)
Definition array_spread (a : addr) : M addr := fun w =>
  new_array (array_at w a) w.

(** [a.push(x)] *)
Definition array_push (a : addr) (x : addr) : M unit := fun w =>
  (Normal tt,
   {| objects := objects w; arrays := <[a := array_at w a ++ [x]]> (arrays w);
      requests := requests w |}).

(** [a.length = 0] *)
Definition array_clear (a : addr) : M unit := fun w =>
  (Normal tt,
   {| objects := objects w; arrays := <[a := []]> (arrays w);
      requests := requests w |}).

Definition read_array (a : addr) : M (list value) := fun w =>
  (Normal (array_value w a), w).

(** [obj[k] = v] on a property list. *)
Fixpoint set_prop {V : Type} (k : string) (v : V) (props : list (string * V))
  : list (string * V) :=
  match props with
  | [] => [(k, v)]
  | (k', v') :: rest =>
      if String.eqb k k' then (k, v) :: rest else (k', v') :: set_prop k v rest
  end.

(** [{ ...a, ...b }] *)
Definition spread {V : Type} (a b : list (string * V)) : list (string * V) :=
  fold_left (fun acc kv => set_prop (fst kv) (snd kv) acc) b a.

(** ** The SDK *)

Record PlayPathSDK : Type := mkSDK {
  baseUrl : string;
  apiKey : string;
  headers : list (string * string)
}.

Record PlayPathConfig : Type := mkConfig {
  cfg_baseUrl : option string;
  cfg_apiKey : option string;
  cfg_headers : option (list (string * string))
}.

(** [constructor(config = {})] *)
Definition constructor (config : PlayPathConfig) : PlayPathSDK :=
  let key := default "" (cfg_apiKey config) in
  let hs := spread [("Content-Type", "application/json")]
                   (default [] (cfg_headers config)) in
  {| baseUrl := default "" (cfg_baseUrl config);
     apiKey := key;
     headers := if String.eqb key "" then hs else set_prop "X-Api-Key" key hs |}.

Definition setApiKey (this : PlayPathSDK) (key : string) : PlayPathSDK :=
  {| baseUrl := baseUrl this; apiKey := key;
     headers := set_prop "X-Api-Key" key (headers this) |}.

Definition setBaseUrl (this : PlayPathSDK) (url : string) : PlayPathSDK :=
  {| baseUrl := url; apiKey := apiKey this; headers := headers this |}.

(** The [options] argument of [_request]. *)
Record request_options : Type := mkOptions {
  opt_method : option string;
  opt_headers : option (list (string * string));
  opt_body : option value
}.

Definition no_options : request_options :=
  {| opt_method := None; opt_headers := None; opt_body := None |}.

(** The world once [rq] has gone out. *)
Definition log_request (rq : request) (w : world) : world :=
  {| objects := objects w; arrays := arrays w;
     requests := requests w ++ [rq] |}.

(** The [url] and the [config] object [_request] builds.  In [config] the
    spread of [options] comes after the merged [headers], so a [headers]
    property of [options] replaces the merged one. *)
Definition request_config (this : PlayPathSDK) (endpoint : string)
    (options : request_options) : request :=
  {| req_url := baseUrl this +:+ endpoint;
     req_method := opt_method options;
     req_headers :=
       match opt_headers options with
       | Some h => h
       | None => spread (headers this) []
       end;
     req_body := opt_body options |}.

Section SDK.

(** The remote API and the network between it and the SDK: what [fetch]
    gives for a request, given the requests issued before it. *)
Variable server : list request -> request -> fetch_result.

(** [fetch(url, config)] *)
Definition fetch (rq : request) : M response := fun w =>
  match server (requests w) rq with
  | FetchRejects e => (Throw (ThrowNative e), log_request rq w)
  | FetchResolves r => (Normal r, log_request rq w)
  end.

(** [response.json()] *)
Definition json (r : response) : M value :=
  match resp_json r with
  | inl e => throw (ThrowNative e)
  | inr v => mret v
  end.

(** [async _request(endpoint, options = {})] *)
Definition _request (this : PlayPathSDK) (endpoint : string)
    (options : request_options) : M value :=
  let config := request_config this endpoint options in
  try_catch
    (response ← fetch config;
     data ← json response;
     if negb (resp_ok response) then
       err ← lift (get_prop data "error");
       throw_new
         (new_PlayPathError
            (js_or err (VStr ("HTTP " +:+ number_text (resp_status response))))
            (Some (resp_status response))
            (DataValue data))
     else mret data)
    (fun error =>
       match error with
       | ThrowPlayPath _ => throw error
       | ThrowNative e =>
           throw_new (new_PlayPathError (VStr (err_message e)) None (DataError e))
       end).

(** [async ragChat(params)] *)
Definition ragChat (this : PlayPathSDK) (params : value) : M value :=
  msg ← lift (get_prop params "message");
  if negb (truthy msg) then
    throw_new (new_PlayPathError (VStr "Message is required") (Some 400)
                                 (DataValue VNull))
  else
    let payload := [("message", msg)] in
    hist ← lift (get_prop params "history");
    let payload :=
      if truthy hist then set_prop "history" hist payload else payload in
    prompt ← lift (get_prop params "system_prompt");
    let payload :=
      if truthy prompt then set_prop "system_prompt" prompt payload
      else payload in
    _request this "/api/rag/chat"
      {| opt_method := Some "POST"; opt_headers := None;
         opt_body := JSON_stringify (VObj payload) |}.

(** [async getItems()] *)
Definition getItems (this : PlayPathSDK) : M value :=
  _request this "/api/items" no_options.

(** [async getItem(id)] *)
Definition getItem (this : PlayPathSDK) (id : value) : M value :=
  path ← lift (ToString id);
  _request this ("/api/items/" +:+ path) no_options.

(** [async createItem(item)] *)
Definition createItem (this : PlayPathSDK) (item : value) : M value :=
  title ← lift (get_prop item "title");
  missing ←
    (if negb (truthy title) then
       text ← lift (get_prop item "text");
       mret (negb (truthy text))
     else mret false);
  if (missing : bool) then
    throw_new (new_PlayPathError (VStr "Either title or text is required")
                                 (Some 400) (DataValue VNull))
  else
    _request this "/api/items"
      {| opt_method := Some "POST"; opt_headers := None;
         opt_body := JSON_stringify item |}.

(** [async updateItem(id, item)] *)
Definition updateItem (this : PlayPathSDK) (id item : value) : M value :=
  path ← lift (ToString id);
  _request this ("/api/items/" +:+ path)
    {| opt_method := Some "PUT"; opt_headers := None;
       opt_body := JSON_stringify item |}.

(** [async deleteItem(id)] *)
Definition deleteItem (this : PlayPathSDK) (id : value) : M value :=
  path ← lift (ToString id);
  _request this ("/api/items/" +:+ path)
    {| opt_method := Some "DELETE"; opt_headers := None; opt_body := None |}.

(** The bindings a chat session's closures capture: the [history] array
    (a constant binding to one array) and the [systemPrompt] variable. *)
Record ChatSession : Type := mkSession {
  history : addr;
  systemPrompt : value
}.

(** [createChatSession(systemPrompt = null)] *)
Definition createChatSession (prompt : value) : M ChatSession :=
  h ← new_array [];
  mret {| history := h;
          systemPrompt := match prompt with VUndefined => VNull | _ => prompt end |}.

(** The [params] object [sendMessage] builds from the message and the
    copied history. *)
Definition chat_params (s : ChatSession) (msg : value) (snapshot : list value)
  : value :=
  let params := [("message", msg); ("history", VArr snapshot)] in
  VObj (if truthy (systemPrompt s)
        then set_prop "system_prompt" (systemPrompt s) params else params).

(** [sendMessage: async (message) => ...]; each call is awaited before the
    session is used again. *)
Definition sendMessage (this : PlayPathSDK) (s : ChatSession) (msg : value)
  : M value :=
  copy ← array_spread (history s);
  snapshot ← read_array copy;
  response ← ragChat this (chat_params s msg snapshot);
  user ← new_object [("role", VStr "user"); ("text", msg)];
  array_push (history s) user;;
  reply ← lift (get_prop response "reply");
  assistant ← new_object [("role", VStr "assistant"); ("text", reply)];
  array_push (history s) assistant;;
  mret response.

(** [getHistory: () => [...history]] *)
Definition getHistory (s : ChatSession) : M addr :=
  array_spread (history s).

(** [clearHistory: () => { history.length = 0; }] *)
Definition clearHistory (s : ChatSession) : M unit :=
  array_clear (history s).

(** [setSystemPrompt: (prompt) => { systemPrompt = prompt; }] *)
Definition setSystemPrompt (s : ChatSession) (prompt : value) : ChatSession :=
  {| history := history s; systemPrompt := prompt |}.

End SDK.


(** ** Vocabulary of the statements *)

(** The turn sequence of a session as a caller reads it. *)
Definition history_view (w : world) (s : ChatSession) : list value :=
  array_value w (history s).

(** A session of a running program: its history array is allocated and
    holds allocated objects (JavaScript has no dangling reference). *)
Definition wf_session (w : world) (s : ChatSession) : Prop :=
  (history s < length (arrays w))%nat /\
  Forall (fun o => (o < length (objects w))%nat) (array_at w (history s)).

Definition user_turn (text : value) : value :=
  VObj [("role", VStr "user"); ("text", text)].

Definition assistant_turn (text : value) : value :=
  VObj [("role", VStr "assistant"); ("text", text)].

(** [v.k] of a value that has properties. *)
Definition field (v : value) (k : string) : value :=
  match get_prop v k with
  | Normal x => x
  | Throw _ => VUndefined
  end.

Definition reply_of (response : value) : value := field response "reply".

(** The two turns one exchange leaves in the history. *)
Definition exchange (msg response : value) : list value :=
  [user_turn msg; assistant_turn (reply_of response)].

(** The error [_request] makes of a failure below HTTP. *)
Definition transport_failure (e : native_error) : thrown :=
  ThrowPlayPath {| message := err_message e; status := None; data := DataError e |}.

(** The message of the error [_request] makes of a non-success response
    with parsed body [d] and status [st]: [data.error || `HTTP ${status}`]
    as [super(message)] converts it. *)
Definition http_error_message (d : value) (st : Z) : outcome string :=
  ToString (js_or (field d "error") (VStr ("HTTP " +:+ number_text st))).

(** The error [ragChat] and [createItem] raise on bad input. *)
Definition validation_failure (msg : string) : thrown :=
  ThrowPlayPath {| message := msg; status := Some 400; data := DataValue VNull |}.

(** The JSON a value that has one is sent as. *)
Definition json_of (v : value) : value := default VNull (JSON_stringify v).

(** The request body [ragChat] sends for [params]. *)
Definition chat_body (params : value) : value :=
  VObj ([("message", json_of (field params "message"))]
        ++ (if truthy (field params "history")
            then [("history", json_of (field params "history"))] else [])
        ++ (if truthy (field params "system_prompt")
            then [("system_prompt", json_of (field params "system_prompt"))]
            else [])).

Definition chat_options (params : value) : request_options :=
  {| opt_method := Some "POST"; opt_headers := None;
     opt_body := Some (chat_body params) |}.

(** The world once the session has pushed a new object with the given
    properties onto its history. *)
Definition push_turn (s : ChatSession) (props : list (string * value))
    (w : world) : world :=
  {| objects := objects w ++ [props];
     arrays := <[history s := array_at w (history s) ++ [length (objects w)]]>
                 (arrays w);
     requests := requests w |}.

(** The [ragChat] call inside [sendMessage], made once the history has
    been copied. *)
Definition chat_call (server : list request -> request -> fetch_result)
    (this : PlayPathSDK) (s : ChatSession) (msg : value) (w : world)
  : outcome value * world :=
  ragChat server this (chat_params s msg (history_view w s))
          (snd (array_spread (history s) w)).

(** The backend never answers a success status with a body that is
    [null]: a successful response has properties, as the declared
    [RagChatResponse] has. *)
Definition success_has_properties
    (server : list request -> request -> fetch_result) : Prop :=
  forall log rq r d,
    server log rq = FetchResolves r -> resp_ok r = true ->
    resp_json r = inr d -> nullish d = false.

(** Backends of the examples. *)
Definition example_sdk : PlayPathSDK :=
  constructor {| cfg_baseUrl := Some "https://playpath.io";
                 cfg_apiKey := Some "key"; cfg_headers := None |}.

Definition always (r : response) : list request -> request -> fetch_result :=
  fun _ _ => FetchResolves r.

Definition backend_hello : list request -> request -> fetch_result :=
  always {| resp_status := 200;
            resp_json := inr (VObj [("reply", VStr "hello")]) |}.

Definition backend_not_found : list request -> request -> fetch_result :=
  always {| resp_status := 404;
            resp_json := inr (VObj [("error", VStr "not found")]) |}.

Definition backend_null (st : Z) : list request -> request -> fetch_result :=
  always {| resp_status := st; resp_json := inr VNull |}.

Definition backend_answers (st : Z) (body : value)
  : list request -> request -> fetch_result :=
  always {| resp_status := st; resp_json := inr body |}.

(** A backend whose first answer is 200 with the body [null] and whose
    later answers are 200 with a reply. *)
Definition backend_null_then_hello : list request -> request -> fetch_result :=
  fun log _ =>
    match log with
    | [] => FetchResolves {| resp_status := 200; resp_json := inr VNull |}
    | _ :: _ =>
        FetchResolves {| resp_status := 200;
                         resp_json := inr (VObj [("reply", VStr "hello")]) |}
    end.

Definition backend_down : list request -> request -> fetch_result :=
  fun _ _ => FetchRejects {| err_name := "TypeError"; err_message := "fetch failed" |}.

(** A fresh session in an empty world, as [createChatSession()] makes it. *)
Definition fresh_session : ChatSession :=
  {| history := 0%nat; systemPrompt := VNull |}.

Definition fresh_world : world :=
  {| objects := []; arrays := [[]]; requests := [] |}.

(** The world after a fresh session has had one exchange with
    [backend]. *)
Definition after_first_send (backend : list request -> request -> fetch_result)
  : world :=
  snd (sendMessage backend example_sdk fresh_session (VStr "hi") fresh_world).

(** A caller's script: send the messages one after the other, awaiting
    each; the script stops at the first failure. *)
Fixpoint send_all (server : list request -> request -> fetch_result)
    (this : PlayPathSDK) (s : ChatSession) (msgs : list value)
  : M (list value) :=
  match msgs with
  | [] => mret []
  | m :: rest =>
      r ← sendMessage server this s m;
      rs ← send_all server this s rest;
      mret (r :: rs)
  end.

(** A caller's script that goes on after a failed send:
    [try { await session.sendMessage(m) } catch (e) {}] for each message. *)
Fixpoint send_each (server : list request -> request -> fetch_result)
    (this : PlayPathSDK) (s : ChatSession) (msgs : list value) (w : world)
  : list (outcome value) * world :=
  match msgs with
  | [] => ([], w)
  | m :: rest =>
      let (o, w1) := sendMessage server this s m w in
      let (os, w2) := send_each server this s rest w1 in
      (o :: os, w2)
  end.

(** The turns a send leaves behind when it keeps to all or nothing. *)
Definition turns_of (msg : value) (o : outcome value) : list value :=
  match o with
  | Normal response => exchange msg response
  | Throw _ => []
  end.

(** The messages of the sends that succeeded, each with its response, in
    call order. *)
Fixpoint successes (msgs : list value) (outcomes : list (outcome value))
  : list (value * value) :=
  match msgs, outcomes with
  | m :: msgs', Normal response :: outcomes' =>
      (m, response) :: successes msgs' outcomes'
  | _ :: msgs', Throw _ :: outcomes' => successes msgs' outcomes'
  | _, _ => []
  end.

(** What a caller can do to an array it holds: change the array itself
    (push, pop, splice, assignment to an index or to [length]), which
    leaves it with some other elements, or write a property of one of its
    element objects, [a[i][k] = v]. *)
Inductive mutation : Type :=
| SetElements (elems : list addr)
| SetField (i : nat) (k : string) (v : value).

Definition mutate (a : addr) (m : mutation) : M unit := fun w =>
  match m with
  | SetElements elems =>
      (Normal tt,
       {| objects := objects w; arrays := <[a := elems]> (arrays w);
          requests := requests w |})
  | SetField i k v =>
      match array_at w a !! i with
      | Some o =>
          (Normal tt,
           {| objects := <[o := set_prop k v (object_at w o)]> (objects w);
              arrays := arrays w; requests := requests w |})
      | None =>
          (Throw (TypeError ("Cannot set properties of undefined (setting '"
                             +:+ k +:+ "')")), w)
      end
  end.

(** The first of the keys whose value in the record is truthy, with a
    default. *)
Fixpoint first_truthy (keys : list string) (props : list (string * value))
    (dflt : value) : value :=
  match keys with
  | [] => dflt
  | k :: rest =>
      let v := default VUndefined (own_prop k props) in
      if truthy v then v else first_truthy rest props dflt
  end.

(** The first of the keys the record has at all, with a default: the
    reading of the specification's "first present field". *)
Fixpoint spec_first_present (keys : list string) (props : list (string * value))
    (dflt : value) : value :=
  match keys with
  | [] => dflt
  | k :: rest =>
      match own_prop k props with
      | Some v => v
      | None => spec_first_present rest props dflt
      end
  end.

(** The Chat Turn the specification's words give for a record. *)
Definition spec_formatTurn (props : list (string * value)) : value :=
  VObj [("role", spec_first_present ["role"] props (VStr "user"));
        ("text", spec_first_present ["text"; "message"; "content"] props (VStr ""))].

(** ** Callers of the SDK *)

(** A header of a header object; the first binding of a name is the live
    one. *)
Fixpoint header (k : string) (hs : list (string * string)) : option string :=
  match hs with
  | [] => None
  | (k', v) :: rest => if String.eqb k k' then Some v else header k rest
  end.

(** One call of a public request method of the SDK. *)
Inductive api_call : Type :=
| RagChat (params : value)
| GetItems
| GetItem (id : value)
| CreateItem (item : value)
| UpdateItem (id item : value)
| DeleteItem (id : value).

Definition perform (server : list request -> request -> fetch_result)
    (this : PlayPathSDK) (c : api_call) : M value :=
  match c with
  | RagChat params => ragChat server this params
  | GetItems => getItems server this
  | GetItem id => getItem server this id
  | CreateItem item => createItem server this item
  | UpdateItem id item => updateItem server this id item
  | DeleteItem id => deleteItem server this id
  end.

(** The requests issued from world [w] on. *)
Definition issued_since (w w' : world) : list request :=
  drop (length (requests w)) (requests w').

(** ** The Express example server ([examples/express-server.js]) *)

(** What a handler answers with [res.status(s).json(v)]; [res.json(v)]
    alone has status 200. *)
Record http_reply : Type := mkReply {
  reply_status : Z;
  reply_body : option value
}.

Definition res_json (st : Z) (v : value) : http_reply :=
  {| reply_status := st; reply_body := JSON_stringify v |}.

(** [const { k, ... } = v]: destructuring [null] or [undefined] throws. *)
Definition destructure (v : value) (k : string) : outcome value :=
  match v with
  | VUndefined | VNull =>
      Throw (TypeError ("Cannot destructure property '" +:+ k +:+
                        "' of 'req.body' as it is " +:+ nullish_text v +:+ "."))
  | _ => get_prop v k
  end.

(** Key equality of a [Map] (SameValueZero).  Objects and arrays are equal
    only to themselves, and every request body is parsed into new ones, so
    a key that is an object or an array equals no key seen before. *)
Definition same_key (a b : value) : bool :=
  match a, b with
  | VUndefined, VUndefined => true
  | VNull, VNull => true
  | VBool x, VBool y => Bool.eqb x y
  | VNum x, VNum y => Z.eqb x y
  | VStr x, VStr y => String.eqb x y
  | _, _ => false
  end.

(** [chatSessions = new Map()], in insertion order. *)
Fixpoint map_get (k : value) (m : list (value * ChatSession))
  : option ChatSession :=
  match m with
  | [] => None
  | (k', v) :: rest => if same_key k k' then Some v else map_get k rest
  end.

Fixpoint map_set (k : value) (v : ChatSession) (m : list (value * ChatSession))
  : list (value * ChatSession) :=
  match m with
  | [] => [(k, v)]
  | (k', v') :: rest =>
      if same_key k k' then (k', v) :: rest else (k', v') :: map_set k v rest
  end.

Definition map_has (k : value) (m : list (value * ChatSession)) : bool :=
  match map_get k m with Some _ => true | None => false end.

Definition map_delete (k : value) (m : list (value * ChatSession))
  : list (value * ChatSession) :=
  filter (fun kv => same_key k (fst kv) = false) m.

(** [error.message], [error.status] and [error.data] of a caught error.
    An [Error] object held as [data] has no enumerable property of its own
    and so is sent as [{}]. *)
Definition error_message (e : thrown) : value :=
  match e with
  | ThrowPlayPath pe => VStr (message pe)
  | ThrowNative ne => VStr (err_message ne)
  end.

Definition error_status (e : thrown) : value :=
  match e with
  | ThrowPlayPath pe =>
      match status pe with Some st => VNum st | None => VNull end
  | ThrowNative _ => VUndefined
  end.

Definition error_data (e : thrown) : value :=
  match e with
  | ThrowPlayPath pe =>
      match data pe with DataValue v => v | DataError _ => VObj [] end
  | ThrowNative _ => VUndefined
  end.

(** [error.status || 500] as the number [res.status] takes. *)
Definition status_or_500 (e : thrown) : Z :=
  match js_or (error_status e) (VNum 500) with
  | VNum st => st
  | _ => 500
  end.

Section ExpressServer.

Variable server : list request -> request -> fetch_result.

(** [playPathSDK], the instance the server makes at start. *)
Variable playPathSDK : PlayPathSDK.

(** [app.post('/api/chat/start', ...)] *)
Definition post_chat_start (body : value) (chatSessions : list (value * ChatSession))
  : M (http_reply * list (value * ChatSession)) :=
  sessionId ← lift (destructure body "sessionId");
  prompt ← lift (get_prop body "systemPrompt");
  if negb (truthy sessionId) then
    mret (res_json 400 (VObj [("error", VStr "sessionId is required")]),
          chatSessions)
  else
    try_catch
      (chatSession ← createChatSession (js_or prompt VNull);
       mret (res_json 200
               (VObj [("message", VStr "Chat session started successfully");
                      ("sessionId", sessionId)]),
             map_set sessionId chatSession chatSessions))
      (fun error =>
         mret (res_json 500 (VObj [("error", error_message error)]),
               chatSessions)).

(** [app.post('/api/chat/message', ...)] *)
Definition post_chat_message (body : value)
    (chatSessions : list (value * ChatSession))
  : M (http_reply * list (value * ChatSession)) :=
  sessionId ← lift (destructure body "sessionId");
  msg ← lift (get_prop body "message");
  if negb (truthy sessionId) || negb (truthy msg) then
    mret (res_json 400 (VObj [("error", VStr "sessionId and message are required")]),
          chatSessions)
  else
    match map_get sessionId chatSessions with
    | None =>
        mret (res_json 404 (VObj [("error", VStr "Chat session not found")]),
              chatSessions)
    | Some chatSession =>
        try_catch
          (response ← sendMessage server playPathSDK chatSession msg;
           reply ← lift (get_prop response "reply");
           usage ← lift (get_prop response "usage");
           limit ← lift (get_prop response "limit");
           mret (res_json 200
                   (VObj [("reply", reply); ("usage", usage); ("limit", limit);
                          ("sessionId", sessionId)]),
                 chatSessions))
          (fun error =>
             mret (res_json 500 (VObj [("error", error_message error)]),
                   chatSessions))
    end.

(** [app.get('/api/chat/history/:sessionId', ...)] *)
Definition get_chat_history (sessionId : string)
    (chatSessions : list (value * ChatSession))
  : M (http_reply * list (value * ChatSession)) :=
  match map_get (VStr sessionId) chatSessions with
  | None =>
      mret (res_json 404 (VObj [("error", VStr "Chat session not found")]),
            chatSessions)
  | Some chatSession =>
      copy ← getHistory chatSession;
      turns ← read_array copy;
      mret (res_json 200
              (VObj [("history", VArr turns); ("sessionId", VStr sessionId)]),
            chatSessions)
  end.

(** [app.delete('/api/chat/history/:sessionId', ...)] *)
Definition delete_chat_history (sessionId : string)
    (chatSessions : list (value * ChatSession))
  : M (http_reply * list (value * ChatSession)) :=
  match map_get (VStr sessionId) chatSessions with
  | None =>
      mret (res_json 404 (VObj [("error", VStr "Chat session not found")]),
            chatSessions)
  | Some chatSession =>
      clearHistory chatSession;;
      mret (res_json 200 (VObj [("message", VStr "Chat history cleared")]),
            chatSessions)
  end.

(** [app.delete('/api/chat/:sessionId', ...)] *)
Definition delete_chat (sessionId : string)
    (chatSessions : list (value * ChatSession))
  : M (http_reply * list (value * ChatSession)) :=
  if map_has (VStr sessionId) chatSessions then
    mret (res_json 200 (VObj [("message", VStr "Chat session ended")]),
          map_delete (VStr sessionId) chatSessions)
  else
    mret (res_json 404 (VObj [("error", VStr "Chat session not found")]),
          chatSessions).

(** [app.post('/api/rag/chat', ...)] *)
Definition post_rag_chat (body : value) : M http_reply :=
  try_catch
    (response ← ragChat server playPathSDK body;
     mret (res_json 200 response))
    (fun error =>
       mret (res_json (status_or_500 error)
               (VObj [("error", error_message error);
                      ("details", error_data error)]))).

(** [app.get('/api/items', ...)] *)
Definition get_items : M http_reply :=
  try_catch
    (items ← getItems server playPathSDK;
     mret (res_json 200 items))
    (fun error =>
       mret (res_json (status_or_500 error)
               (VObj [("error", error_message error)]))).

(** [app.get('/api/items/:id', ...)] *)
Definition get_item (id : string) : M http_reply :=
  try_catch
    (item ← getItem server playPathSDK (VStr id);
     mret (res_json 200 item))
    (fun error =>
       mret (res_json (status_or_500 error)
               (VObj [("error", error_message error)]))).

(** [app.post('/api/items', ...)] *)
Definition post_items (body : value) : M http_reply :=
  try_catch
    (item ← createItem server playPathSDK body;
     mret (res_json 201 item))
    (fun error =>
       mret (res_json (status_or_500 error)
               (VObj [("error", error_message error)]))).

(** [app.put('/api/items/:id', ...)] *)
Definition put_item (id : string) (body : value) : M http_reply :=
  try_catch
    (item ← updateItem server playPathSDK (VStr id) body;
     mret (res_json 200 item))
    (fun error =>
       mret (res_json (status_or_500 error)
               (VObj [("error", error_message error)]))).

(** [app.delete('/api/items/:id', ...)] *)
Definition delete_item (id : string) : M http_reply :=
  try_catch
    (result ← deleteItem server playPathSDK (VStr id);
     mret (res_json 200 result))
    (fun error =>
       mret (res_json (status_or_500 error)
               (VObj [("error", error_message error)]))).

End ExpressServer.

(** The item routes that validate nothing themselves. *)
Inductive item_route : Type :=
| RouteGetItems
| RouteGetItem (id : string)
| RoutePutItem (id : string) (body : value)
| RouteDeleteItem (id : string).

Definition handle_item_route (server : list request -> request -> fetch_result)
    (sdk : PlayPathSDK) (route : item_route) : M http_reply :=
  match route with
  | RouteGetItems => get_items server sdk
  | RouteGetItem id => get_item server sdk id
  | RoutePutItem id body => put_item server sdk id body
  | RouteDeleteItem id => delete_item server sdk id
  end.

(** ** The transport *)

Ltac unfold_M :=
  unfold mbind, mret, M_bind, M_ret, outcome_bind, outcome_ret,
    throw, lift, try_catch in *.

(** Induction on values through the lists they nest. *)
Lemma value_nested_ind (P : value -> Prop) :
  P VUndefined -> P VNull -> (forall b, P (VBool b)) -> (forall n, P (VNum n)) ->
  (forall s, P (VStr s)) ->
  (forall elems, Forall P elems -> P (VArr elems)) ->
  (forall props, Forall (fun kv => P (snd kv)) props -> P (VObj props)) ->
  forall v, P v.
Proof.
  intros Hu Hn Hb Hz Hs Ha Ho. fix IH 1. intros v.
  destruct v as [| | b | n | s | elems | props];
    [exact Hu | exact Hn | apply Hb | apply Hz | apply Hs | |].
  - apply Ha. induction elems as [| e elems IHl]; constructor; [apply IH | exact IHl].
  - apply Ho. induction props as [| [k x] props IHl]; constructor;
      [apply IH | exact IHl].
Qed.

(** The only thing [ToString] throws is the [TypeError] of an object that
    does not convert. *)
Lemma ToString_throws v e :
  ToString v = Throw e ->
  e = TypeError "Cannot convert object to primitive value".
Proof.
  revert e. induction v as [| | b | n | s | elems IH | props _]
    using value_nested_ind; intros e; simpl; try discriminate.
  - destruct b; discriminate.
  - induction IH as [| x elems Hx _ IHl]; [discriminate |].
    destruct (nullish x).
    + destruct elems as [| y elems]; [discriminate |].
      match goal with
      | |- context [match ?j with Normal _ => _ | Throw _ => _ end] =>
          destruct j as [t | err] eqn:Hj
      end; [discriminate |].
      intros [= <-]. now apply IHl.
    + destruct (ToString x) as [t | err] eqn:Hs.
      * destruct elems as [| y elems]; [discriminate |].
        match goal with
        | |- context [match ?j with Normal _ => _ | Throw _ => _ end] =>
            destruct j as [t' | err] eqn:Hj
        end; [discriminate |].
        intros [= <-]. now apply IHl.
      * intros [= <-]. now apply Hx.
  - destruct (own_prop "toString" props); [| discriminate].
    now intros [= <-].
Qed.

Lemma ToString_string s : ToString (VStr s) = Normal s.
Proof. reflexivity. Qed.

(** What [new PlayPathError] throws is a native error. *)
Lemma new_PlayPathError_throws msg st d e :
  new_PlayPathError msg st d = Throw e ->
  e = TypeError "Cannot convert object to primitive value".
Proof.
  unfold new_PlayPathError. intros H.
  destruct msg; try discriminate H; unfold mbind, outcome_bind in H;
    match type of H with
    | context [ToString ?v] =>
        destruct (ToString v) as [t | err] eqn:Hs;
        [discriminate H | injection H as <-; exact (ToString_throws _ _ Hs)]
    end.
Qed.

Lemma new_PlayPathError_fields msg st d pe :
  new_PlayPathError msg st d = Normal pe -> status pe = st /\ data pe = d.
Proof.
  unfold new_PlayPathError. intros H.
  destruct msg; try (injection H as <-; split; reflexivity);
    unfold mbind, outcome_bind in H;
    match type of H with
    | context [ToString ?v] =>
        destruct (ToString v) as [t | err];
        [injection H as <-; split; reflexivity | discriminate H]
    end.
Qed.

Section TransportFacts.

Variable server : list request -> request -> fetch_result.
Variable this : PlayPathSDK.
Variable endpoint : string.
Variable options : request_options.
Variable w : world.

Local Abbreviation rq := (request_config this endpoint options).

(** The error of a non-success response, as [_request] constructs it. *)
Local Abbreviation http_error r d :=
  (new_PlayPathError
     (js_or (field d "error") (VStr ("HTTP " +:+ number_text (resp_status r))))
     (Some (resp_status r)) (DataValue d)).

Lemma _request_world :
  snd (_request server this endpoint options w) = log_request rq w.
Proof.
  unfold _request, fetch, json, throw_new. unfold_M.
  destruct (server (requests w) rq) as [e | r]; simpl; [reflexivity |].
  destruct (resp_json r) as [e | d]; simpl; [reflexivity |].
  destruct (resp_ok r); simpl; [reflexivity |].
  destruct (get_prop d "error") as [v | [e | e]]; simpl; try reflexivity.
  destruct (new_PlayPathError _ _ _) as [pe | [pe | ne]]; reflexivity.
Qed.

Lemma _request_rejects e :
  server (requests w) rq = FetchRejects e ->
  fst (_request server this endpoint options w) = Throw (transport_failure e).
Proof.
  intros H. unfold _request, fetch. unfold_M. rewrite H. reflexivity.
Qed.

Lemma _request_unparsed r e :
  server (requests w) rq = FetchResolves r ->
  resp_json r = inl e ->
  fst (_request server this endpoint options w) = Throw (transport_failure e).
Proof.
  intros H Hj. unfold _request, fetch, json. unfold_M.
  rewrite H. simpl. rewrite Hj. reflexivity.
Qed.

Lemma _request_success r d :
  server (requests w) rq = FetchResolves r ->
  resp_json r = inr d ->
  resp_ok r = true ->
  fst (_request server this endpoint options w) = Normal d.
Proof.
  intros H Hj Hok. unfold _request, fetch, json. unfold_M.
  rewrite H. simpl. rewrite Hj. simpl. rewrite Hok. reflexivity.
Qed.

(** A non-success response with a body that has properties: the error
    made of it is thrown, or, when its message does not convert to a
    string, the [TypeError] of that, wrapped as a failure below HTTP. *)
Lemma _request_http_failure r d :
  server (requests w) rq = FetchResolves r ->
  resp_json r = inr d ->
  resp_ok r = false ->
  nullish d = false ->
  fst (_request server this endpoint options w) =
  match http_error r d with
  | Normal pe => Throw (ThrowPlayPath pe)
  | Throw _ =>
      Throw (transport_failure
               {| err_name := "TypeError";
                  err_message := "Cannot convert object to primitive value" |})
  end.
Proof.
  intros H Hj Hok Hn. unfold _request, fetch, json, throw_new. unfold_M.
  rewrite H. simpl. rewrite Hj. simpl. rewrite Hok. simpl.
  assert (Hg : get_prop d "error" = Normal (field d "error")).
  { destruct d; try discriminate Hn; reflexivity. }
  rewrite Hg. simpl.
  destruct (http_error r d) as [pe | e] eqn:Hnew; simpl; [reflexivity |].
  apply new_PlayPathError_throws in Hnew. subst e. reflexivity.
Qed.

Lemma _request_http_message r d :
  server (requests w) rq = FetchResolves r ->
  resp_json r = inr d ->
  resp_ok r = false ->
  nullish d = false ->
  fst (_request server this endpoint options w) =
  match http_error_message d (resp_status r) with
  | Normal msg =>
      Throw (ThrowPlayPath {| message := msg; status := Some (resp_status r);
                              data := DataValue d |})
  | Throw _ =>
      Throw (transport_failure
               {| err_name := "TypeError";
                  err_message := "Cannot convert object to primitive value" |})
  end.
Proof.
  intros H Hj Hok Hn. rewrite (_request_http_failure r d H Hj Hok Hn).
  unfold http_error_message, new_PlayPathError, js_or.
  destruct (truthy (field d "error")) eqn:Ht.
  - destruct (field d "error"); try discriminate Ht;
      unfold mbind, outcome_bind;
      match goal with
      | |- context [ToString ?v] => destruct (ToString v); reflexivity
      end.
  - reflexivity.
Qed.

Lemma _request_Normal_inv d :
  fst (_request server this endpoint options w) = Normal d ->
  exists r, server (requests w) rq = FetchResolves r /\
            resp_json r = inr d /\ resp_ok r = true.
Proof.
  unfold _request, fetch, json, throw_new. unfold_M.
  destruct (server (requests w) rq) as [e | r]; simpl; [discriminate |].
  destruct (resp_json r) as [e | d'] eqn:Hj; simpl; [discriminate |].
  destruct (resp_ok r) eqn:Hok; simpl.
  - intros [= ->]. eauto.
  - destruct (get_prop d' "error") as [v | [e | e]]; simpl; try discriminate.
    destruct (new_PlayPathError _ _ _) as [pe | [pe | ne]]; discriminate.
Qed.

End TransportFacts.

(** ** The chat client *)

Lemma truthy_stringify v :
  truthy v = true -> JSON_stringify v = Some (json_of v).
Proof. destruct v; simpl; intros H; try discriminate H; reflexivity. Qed.

Lemma truthy_json_not_null v : truthy v = true -> json_of v <> VNull.
Proof. destruct v; simpl; intros H; try discriminate H; discriminate. Qed.

Lemma get_prop_field v k : nullish v = false -> get_prop v k = Normal (field v k).
Proof. destruct v; simpl; intros H; try discriminate H; reflexivity. Qed.

Section ChatFacts.

Variable server : list request -> request -> fetch_result.
Variable this : PlayPathSDK.

Lemma ragChat_nullish params w :
  nullish params = true ->
  exists e, ragChat server this params w = (Throw (ThrowNative e), w).
Proof.
  intros H. unfold ragChat. unfold_M.
  destruct params; try discriminate H; simpl; eauto.
Qed.

Lemma ragChat_invalid params w :
  nullish params = false ->
  truthy (field params "message") = false ->
  ragChat server this params w =
  (Throw (validation_failure "Message is required"), w).
Proof.
  intros Hn Hm. unfold ragChat. unfold_M.
  rewrite (get_prop_field _ _ Hn), Hm. reflexivity.
Qed.

Lemma ragChat_valid params w :
  nullish params = false ->
  truthy (field params "message") = true ->
  ragChat server this params w =
  _request server this "/api/rag/chat" (chat_options params) w.
Proof.
  intros Hn Hm. unfold ragChat. unfold_M.
  rewrite !(get_prop_field _ _ Hn), Hm. simpl negb. cbv iota.
  assert (Hbody :
    JSON_stringify
      (VObj (if truthy (field params "system_prompt")
             then set_prop "system_prompt" (field params "system_prompt")
                    (if truthy (field params "history")
                     then set_prop "history" (field params "history")
                            [("message", field params "message")]
                     else [("message", field params "message")])
             else if truthy (field params "history")
                  then set_prop "history" (field params "history")
                         [("message", field params "message")]
                  else [("message", field params "message")]))
    = Some (chat_body params)).
  { unfold chat_body.
    destruct (truthy (field params "history")) eqn:Hh;
      destruct (truthy (field params "system_prompt")) eqn:Hp; simpl;
      rewrite ?(truthy_stringify _ Hm), ?(truthy_stringify _ Hh),
        ?(truthy_stringify _ Hp); reflexivity. }
  rewrite Hbody. reflexivity.
Qed.

(** [ragChat] touches nothing but the request log, where it adds at most
    one request. *)
Lemma ragChat_frame params w :
  let w' := snd (ragChat server this params w) in
  objects w' = objects w /\ arrays w' = arrays w /\
  (requests w' = requests w \/
   requests w' = requests w ++
     [request_config this "/api/rag/chat" (chat_options params)]).
Proof.
  destruct (nullish params) eqn:Hn.
  - destruct (ragChat_nullish params w Hn) as [e ->]. simpl. auto.
  - destruct (truthy (field params "message")) eqn:Hm.
    + rewrite (ragChat_valid _ _ Hn Hm), _request_world. simpl. auto.
    + rewrite (ragChat_invalid _ _ Hn Hm). simpl. auto.
Qed.

Lemma ragChat_Normal_inv params w d :
  fst (ragChat server this params w) = Normal d ->
  truthy (field params "message") = true /\
  snd (ragChat server this params w) =
    log_request (request_config this "/api/rag/chat" (chat_options params)) w /\
  exists r,
    server (requests w)
      (request_config this "/api/rag/chat" (chat_options params))
      = FetchResolves r /\
    resp_json r = inr d /\ resp_ok r = true.
Proof.
  destruct (nullish params) eqn:Hn.
  - destruct (ragChat_nullish params w Hn) as [e ->]. discriminate.
  - destruct (truthy (field params "message")) eqn:Hm.
    + rewrite (ragChat_valid _ _ Hn Hm), _request_world. intros H.
      split; [reflexivity | split; [reflexivity |]].
      now apply _request_Normal_inv.
    + rewrite (ragChat_invalid _ _ Hn Hm). discriminate.
Qed.

End ChatFacts.

(** ** The chat session *)

Lemma array_at_alloc w elems a :
  (a < length (arrays w))%nat ->
  default [] ((arrays w ++ [elems]) !! a) = array_at w a.
Proof. intros H. unfold array_at. now rewrite lookup_app_l. Qed.

Lemma array_at_fresh w (elems : list addr) :
  default [] ((arrays w ++ [elems]) !! length (arrays w)) = elems.
Proof. now rewrite list_lookup_middle. Qed.

Lemma array_value_ext w w' a a' :
  objects w' = objects w -> array_at w' a' = array_at w a ->
  array_value w' a' = array_value w a.
Proof.
  intros Ho Ha. unfold array_value, object_at. now rewrite Ho, Ha.
Qed.

(** The copy [[...a]] reads as the array it was made from. *)
Lemma array_spread_spec a w :
  exists w',
    array_spread a w = (Normal (length (arrays w)), w') /\
    objects w' = objects w /\
    arrays w' = arrays w ++ [array_at w a] /\
    requests w' = requests w /\
    array_at w' (length (arrays w)) = array_at w a /\
    array_value w' (length (arrays w)) = array_value w a.
Proof.
  eexists. split; [reflexivity |]. simpl.
  assert (H : array_at
                {| objects := objects w; arrays := arrays w ++ [array_at w a];
                   requests := requests w |} (length (arrays w))
              = array_at w a).
  { unfold array_at at 1. simpl. apply array_at_fresh. }
  repeat split; [exact H |]. now apply array_value_ext.
Qed.

Section SessionFacts.

Variable server : list request -> request -> fetch_result.
Variable this : PlayPathSDK.
Variable s : ChatSession.

(** Allocating arrays and logging requests leaves the session as it is. *)
Lemma session_frame w w' extra :
  wf_session w s ->
  objects w' = objects w ->
  arrays w' = arrays w ++ extra ->
  wf_session w' s /\ history_view w' s = history_view w s /\
  array_at w' (history s) = array_at w (history s).
Proof.
  intros [Hh Ho] Hobj Harr.
  assert (Hat : array_at w' (history s) = array_at w (history s)).
  { unfold array_at. rewrite Harr. now rewrite lookup_app_l. }
  split; [| split; [| exact Hat]].
  - split.
    + rewrite Harr, length_app. lia.
    + rewrite Hat, Hobj. exact Ho.
  - unfold history_view. now apply array_value_ext.
Qed.

(** Pushing a new object appends its value to the view. *)
Lemma push_turn_spec props w :
  wf_session w s ->
  wf_session (push_turn s props w) s /\
  history_view (push_turn s props w) s = history_view w s ++ [VObj props] /\
  requests (push_turn s props w) = requests w.
Proof.
  intros [Hh Ho].
  assert (Hat : array_at (push_turn s props w) (history s)
                = array_at w (history s) ++ [length (objects w)]).
  { unfold array_at at 1. simpl. now rewrite list_lookup_insert_eq. }
  split; [| split; [| reflexivity]].
  - split.
    + simpl. now rewrite length_insert.
    + rewrite Hat. simpl. rewrite length_app. simpl.
      apply Forall_app. split.
      * eapply Forall_impl; [exact Ho |]. simpl. intros; lia.
      * constructor; [lia | constructor].
  - unfold history_view, array_value. rewrite Hat, map_app. simpl.
    f_equal.
    + apply map_ext_Forall. eapply Forall_impl; [exact Ho |].
      intros o Hlt. simpl in Hlt. unfold object_at. simpl.
      now rewrite lookup_app_l.
    + unfold object_at. simpl. now rewrite list_lookup_middle.
Qed.

(** [sendMessage] step by step: the copy, the call, the two pushes. *)
Lemma sendMessage_unfold msg w :
  sendMessage server this s msg w =
  let w1 := snd (array_spread (history s) w) in
  match ragChat server this (chat_params s msg (history_view w s)) w1 with
  | (Throw e, w2) => (Throw e, w2)
  | (Normal resp, w2) =>
      let w3 := push_turn s [("role", VStr "user"); ("text", msg)] w2 in
      match get_prop resp "reply" with
      | Throw e => (Throw e, w3)
      | Normal reply =>
          (Normal resp,
           push_turn s [("role", VStr "assistant"); ("text", reply)] w3)
      end
  end.
Proof.
  destruct (array_spread_spec (history s) w)
    as (w1 & Hsp & Hobj & Harr & Hreq & Hat & Hval).
  unfold sendMessage. unfold_M. rewrite Hsp. simpl snd.
  unfold read_array. fold (history_view w s) in Hval. rewrite Hval.
  destruct (ragChat server this (chat_params s msg (history_view w s)) w1)
    as [[resp | e] w2]; [| reflexivity].
  unfold new_object, array_push. simpl.
  destruct (get_prop resp "reply") as [reply | e]; reflexivity.
Qed.

Lemma call_frame msg w :
  wf_session w s ->
  wf_session (snd (chat_call server this s msg w)) s /\
  history_view (snd (chat_call server this s msg w)) s = history_view w s.
Proof.
  intros Hwf. unfold chat_call.
  destruct (array_spread_spec (history s) w)
    as (w1 & Hsp & Hobj & Harr & _). rewrite Hsp. simpl snd.
  destruct (session_frame w w1 _ Hwf Hobj Harr) as (Hwf1 & Hv1 & _).
  destruct (ragChat_frame server this (chat_params s msg (history_view w s)) w1)
    as (Hobj2 & Harr2 & _).
  rewrite <- (app_nil_r (arrays w1)) in Harr2.
  destruct (session_frame w1 _ _ Hwf1 Hobj2 Harr2) as (Hwf2 & Hv2 & _).
  split; [exact Hwf2 | congruence].
Qed.

(** A send that succeeds has appended the two turns of the exchange. *)
Lemma sendMessage_Normal msg w resp w' :
  wf_session w s ->
  sendMessage server this s msg w = (Normal resp, w') ->
  fst (chat_call server this s msg w) = Normal resp /\
  wf_session w' s /\
  history_view w' s = history_view w s ++ exchange msg resp.
Proof.
  intros Hwf. rewrite sendMessage_unfold. cbv zeta. fold (chat_call server this s msg w).
  destruct (call_frame msg w Hwf) as [Hwf2 Hv2].
  destruct (chat_call server this s msg w) as [[resp' | e] w2]; [| discriminate].
  simpl in Hwf2, Hv2.
  destruct (get_prop resp' "reply") as [reply | e] eqn:Hr; [| discriminate].
  intros [= -> <-].
  destruct (push_turn_spec [("role", VStr "user"); ("text", msg)] w2 Hwf2)
    as (Hwf3 & Hv3 & _).
  destruct (push_turn_spec [("role", VStr "assistant"); ("text", reply)] _ Hwf3)
    as (Hwf4 & Hv4 & _).
  split; [reflexivity | split; [exact Hwf4 |]].
  rewrite Hv4, Hv3, Hv2, <- app_assoc. unfold exchange, reply_of, field.
  now rewrite Hr.
Qed.

(** A send that fails either failed in [ragChat], and then the history is
    as it was, or got a response without properties, and then the user
    turn is already in the history. *)
Lemma sendMessage_Throw msg w e w' :
  wf_session w s ->
  sendMessage server this s msg w = (Throw e, w') ->
  (fst (chat_call server this s msg w) = Throw e /\ wf_session w' s /\
   history_view w' s = history_view w s) \/
  (exists resp, fst (chat_call server this s msg w) = Normal resp /\ nullish resp = true /\
     history_view w' s = history_view w s ++ [user_turn msg]).
Proof.
  intros Hwf. rewrite sendMessage_unfold. cbv zeta. fold (chat_call server this s msg w).
  destruct (call_frame msg w Hwf) as [Hwf2 Hv2].
  destruct (chat_call server this s msg w) as [[resp | e'] w2]; simpl in Hwf2, Hv2.
  - destruct (get_prop resp "reply") as [reply | e'] eqn:Hr; [discriminate |].
    intros [= -> <-]. right. exists resp.
    destruct (push_turn_spec [("role", VStr "user"); ("text", msg)] w2 Hwf2)
      as (_ & Hv3 & _).
    split; [reflexivity | split].
    + destruct resp; try discriminate Hr; reflexivity.
    + now rewrite Hv3, Hv2.
  - intros [= -> <-]. left. auto.
Qed.

End SessionFacts.

(** One send under a backend whose successes have properties: all or
    nothing. *)
Lemma sendMessage_step server this s msg w :
  wf_session w s ->
  success_has_properties server ->
  wf_session (snd (sendMessage server this s msg w)) s /\
  history_view (snd (sendMessage server this s msg w)) s =
    history_view w s ++ turns_of msg (fst (sendMessage server this s msg w)).
Proof.
  intros Hwf Hsrv.
  destruct (sendMessage server this s msg w) as [[resp | e] w'] eqn:Hsend.
  - destruct (sendMessage_Normal _ _ _ _ _ _ _ Hwf Hsend) as (_ & Hwf' & Hv).
    split; [exact Hwf' | exact Hv].
  - destruct (sendMessage_Throw _ _ _ _ _ _ _ Hwf Hsend)
      as [(_ & Hwf' & Hv) | (resp & Hc & Hnull & _)].
    + simpl. rewrite app_nil_r. split; [exact Hwf' | exact Hv].
    + exfalso. unfold chat_call in Hc.
      apply ragChat_Normal_inv in Hc. destruct Hc as (_ & _ & r & Hr & Hj & Hok).
      rewrite (Hsrv _ _ _ _ Hr Hok Hj) in Hnull. discriminate.
Qed.

(** Failed sends between successful ones leave no trace, under such a
    backend. *)
Lemma send_each_view server this s msgs : forall w,
  wf_session w s ->
  success_has_properties server ->
  history_view (snd (send_each server this s msgs w)) s =
    history_view w s ++
    concat (zip_with turns_of msgs (fst (send_each server this s msgs w))).
Proof.
  induction msgs as [| m msgs IH]; intros w Hwf Hsrv.
  - simpl. now rewrite app_nil_r.
  - simpl. destruct (sendMessage_step server this s m w Hwf Hsrv) as [Hwf1 Hv1].
    destruct (sendMessage server this s m w) as [o w1]. simpl in Hwf1, Hv1.
    specialize (IH w1 Hwf1 Hsrv).
    destruct (send_each server this s msgs w1) as [os w2]. simpl in IH |- *.
    now rewrite IH, Hv1, <- app_assoc.
Qed.

(** [clearHistory()] followed by [getHistory()] gives the empty sequence,
    and [setSystemPrompt] keeps the history array. *)
Lemma clearHistory_empties s w :
  wf_session w s ->
  history_view (snd (clearHistory s w)) s = [] /\
  exists h w',
    getHistory s (snd (clearHistory s w)) = (Normal h, w') /\
    array_value w' h = [].
Proof.
  intros [Hh _].
  assert (Hv : history_view (snd (clearHistory s w)) s = []).
  { unfold history_view, array_value, array_at. simpl.
    now rewrite list_lookup_insert_eq. }
  split; [exact Hv |].
  destruct (array_spread_spec (history s) (snd (clearHistory s w)))
    as (w' & Hsp & _ & _ & _ & _ & Hval).
  eexists _, w'. split; [exact Hsp |]. now rewrite Hval.
Qed.

Lemma setSystemPrompt_keeps_history s prompt w :
  history_view w (setSystemPrompt s prompt) = history_view w s.
Proof. reflexivity. Qed.

Lemma createChatSession_spec prompt w :
  exists s w',
    createChatSession prompt w = (Normal s, w') /\
    wf_session w' s /\ history_view w' s = [] /\ requests w' = requests w.
Proof.
  eexists _, _. split; [reflexivity |]. simpl.
  unfold wf_session, history_view, array_value, array_at. simpl.
  rewrite list_lookup_middle by reflexivity. simpl.
  repeat split; [rewrite length_app; simpl; lia | constructor].
Qed.

Lemma fresh_session_made :
  createChatSession VUndefined empty_world = (Normal fresh_session, fresh_world).
Proof. reflexivity. Qed.

Lemma backend_hello_has_properties : success_has_properties backend_hello.
Proof. intros log rq r d [= <-] _ [= <-]. reflexivity. Defined.

Lemma fresh_session_wf : wf_session fresh_world fresh_session.
Proof. split; [simpl; lia | constructor]. Defined.

(** ** Atomicity of [sendMessage] *)

(** C1, as stated, fails when the backend answers 200 with the body
    [null]: the user turn is pushed, then reading [response.reply] throws,
    so the send fails with one turn appended. *)
Lemma sendMessage_null_body_appends_one_turn :
  fst (sendMessage (backend_null 200) example_sdk fresh_session (VStr "hi")
                   fresh_world)
    = Throw (TypeError "Cannot read properties of null (reading 'reply')") /\
  history_view fresh_world fresh_session = [] /\
  history_view
    (snd (sendMessage (backend_null 200) example_sdk fresh_session (VStr "hi")
                      fresh_world)) fresh_session
    = [user_turn (VStr "hi")].
Proof. vm_compute. repeat split. Qed.

(** C1 (amended): when no successful response has a [null] body,
    [sendMessage] either succeeds with the response of [ragChat] and has
    appended exactly the user turn with the sent text followed by the
    assistant turn with the reply text, or fails with the error [ragChat]
    failed with and leaves the history as it was. *)
Theorem sendMessage_two_turns_or_none
    (server : list request -> request -> fetch_result)
    (this : PlayPathSDK) (s : ChatSession) (msg : value) (w : world) :
  wf_session w s ->
  success_has_properties server ->
  match sendMessage server this s msg w with
  | (Normal resp, w') =>
      fst (chat_call server this s msg w) = Normal resp /\
      history_view w' s =
        history_view w s ++ [user_turn msg; assistant_turn (reply_of resp)]
  | (Throw e, w') =>
      fst (chat_call server this s msg w) = Throw e /\
      history_view w' s = history_view w s
  end.
Proof.
  intros Hwf Hsrv.
  destruct (sendMessage server this s msg w) as [[resp | e] w'] eqn:Hsend.
  - destruct (sendMessage_Normal _ _ _ _ _ _ _ Hwf Hsend) as (Hc & _ & Hv).
    split; [exact Hc | exact Hv].
  - destruct (sendMessage_Throw _ _ _ _ _ _ _ Hwf Hsend)
      as [(Hc & _ & Hv) | (resp & Hc & Hnull & _)]; [auto |].
    exfalso. unfold chat_call in Hc.
    apply ragChat_Normal_inv in Hc. destruct Hc as (_ & _ & r & Hr & Hj & Hok).
    rewrite (Hsrv _ _ _ _ Hr Hok Hj) in Hnull. discriminate.
Qed.

Lemma sendMessage_two_turns_or_none_witness :
  fst (chat_call backend_hello example_sdk fresh_session (VStr "hi") fresh_world)
    = Normal (VObj [("reply", VStr "hello")]) /\
  history_view
    (snd (sendMessage backend_hello example_sdk fresh_session (VStr "hi")
                      fresh_world)) fresh_session
    = [user_turn (VStr "hi"); assistant_turn (VStr "hello")].
Proof.
  pose proof (sendMessage_two_turns_or_none backend_hello example_sdk
                fresh_session (VStr "hi") fresh_world fresh_session_wf
                backend_hello_has_properties) as H.
  vm_compute in H. vm_compute. exact H.
Defined.

(** ** The history after N sends *)

Lemma exchanges_length msgs : forall resps,
  length resps = length msgs ->
  length (concat (zip_with exchange msgs resps)) = (2 * length msgs)%nat.
Proof.
  induction msgs as [| m msgs IH]; intros [| r resps] Hlen;
    try discriminate Hlen; [reflexivity |].
  simpl in *. rewrite IH by lia. lia.
Qed.

Lemma exchanges_lookup msgs : forall resps i m r,
  msgs !! i = Some m -> resps !! i = Some r ->
  concat (zip_with exchange msgs resps) !! (2 * i)%nat = Some (user_turn m) /\
  concat (zip_with exchange msgs resps) !! (2 * i + 1)%nat
    = Some (assistant_turn (reply_of r)).
Proof.
  induction msgs as [| m0 msgs IH]; intros [| r0 resps] i m r Hm Hr;
    try (destruct i; discriminate).
  destruct i as [| i]; simpl in Hm, Hr.
  - injection Hm as <-. injection Hr as <-. split; reflexivity.
  - destruct (IH resps i m r Hm Hr) as [Hu Ha].
    replace (2 * S i)%nat with (S (S (2 * i))) by lia.
    replace (2 * S i + 1)%nat with (S (S (2 * i + 1))) by lia.
    split; [exact Hu | exact Ha].
Qed.

Lemma send_all_view server this s msgs : forall w resps w',
  wf_session w s ->
  send_all server this s msgs w = (Normal resps, w') ->
  wf_session w' s /\ length resps = length msgs /\
  history_view w' s = history_view w s ++ concat (zip_with exchange msgs resps).
Proof.
  induction msgs as [| m msgs IH]; intros w resps w' Hwf Hrun.
  - injection Hrun as <- <-. simpl. now rewrite app_nil_r.
  - simpl in Hrun. unfold_M.
    destruct (sendMessage server this s m w) as [[r | e] w1] eqn:Hsend;
      [| discriminate].
    destruct (sendMessage_Normal _ _ _ _ _ _ _ Hwf Hsend) as (_ & Hwf1 & Hv1).
    destruct (send_all server this s msgs w1) as [[rs | e] w2] eqn:Hrest;
      [| discriminate].
    injection Hrun as <- <-.
    destruct (IH _ _ _ Hwf1 Hrest) as (Hwf2 & Hlen & Hv2).
    split; [exact Hwf2 | split; [simpl; lia |]].
    rewrite Hv2, Hv1. simpl. now rewrite <- app_assoc.
Qed.

(** When every send of a fresh session succeeded, whatever the backend:
    [getHistory()] returns an array of exactly 2N turns; the turn at 2i is
    the user turn of the i-th message and the turn at 2i+1 the assistant
    turn of the i-th reply. *)
Theorem getHistory_after_sends
    (server : list request -> request -> fetch_result)
    (this : PlayPathSDK) (prompt : value) (msgs : list value)
    (w0 w1 w2 : world) (s : ChatSession) (resps : list value) :
  createChatSession prompt w0 = (Normal s, w1) ->
  send_all server this s msgs w1 = (Normal resps, w2) ->
  exists h w3,
    getHistory s w2 = (Normal h, w3) /\
    length (array_value w3 h) = (2 * length msgs)%nat /\
    array_value w3 h = concat (zip_with exchange msgs resps) /\
    forall i m r,
      msgs !! i = Some m -> resps !! i = Some r ->
      array_value w3 h !! (2 * i)%nat = Some (user_turn m) /\
      array_value w3 h !! (2 * i + 1)%nat = Some (assistant_turn (reply_of r)).
Proof.
  intros Hnew Hrun.
  destruct (createChatSession_spec prompt w0) as (s' & w1' & Hnew' & Hwf & Hv & _).
  rewrite Hnew in Hnew'. injection Hnew' as <- <-.
  destruct (send_all_view _ _ _ _ _ _ _ Hwf Hrun) as (_ & Hlen & Hv2).
  rewrite Hv in Hv2. simpl in Hv2.
  destruct (array_spread_spec (history s) w2) as (w3 & Hsp & _ & _ & _ & _ & Hval).
  exists (length (arrays w2)), w3. unfold getHistory.
  fold (history_view w2 s) in Hval. rewrite Hval, Hv2.
  split; [exact Hsp | split; [now apply exchanges_length | split; [reflexivity |]]].
  intros i m r. apply exchanges_lookup.
Qed.

Lemma getHistory_after_sends_witness :
  exists h w3,
    getHistory fresh_session
      (snd (send_all backend_hello example_sdk fresh_session
              [VStr "hi"; VStr "again"] fresh_world)) = (Normal h, w3) /\
    length (array_value w3 h) = 4%nat /\
    array_value w3 h =
      [user_turn (VStr "hi"); assistant_turn (VStr "hello");
       user_turn (VStr "again"); assistant_turn (VStr "hello")].
Proof.
  destruct (send_all backend_hello example_sdk fresh_session
              [VStr "hi"; VStr "again"] fresh_world) as [o w2] eqn:Hrun.
  assert (Ho : o = Normal [VObj [("reply", VStr "hello")];
                           VObj [("reply", VStr "hello")]]).
  { apply (f_equal fst) in Hrun. vm_compute in Hrun. congruence. }
  subst o.
  destruct (getHistory_after_sends backend_hello example_sdk VUndefined
              [VStr "hi"; VStr "again"] empty_world fresh_world w2 fresh_session
              _ fresh_session_made Hrun) as (h & w3 & Hg & Hlen & Hv & _).
  exists h, w3. split; [exact Hg | split; [exact Hlen | exact Hv]].
Defined.

Lemma turns_of_successes msgs : forall outcomes,
  length outcomes = length msgs ->
  concat (zip_with turns_of msgs outcomes) =
  concat (map (fun p => exchange (fst p) (snd p)) (successes msgs outcomes)).
Proof.
  induction msgs as [| m msgs IH]; intros [| o outcomes] Hlen;
    try discriminate Hlen; [reflexivity |].
  simpl in Hlen. simpl. destruct o as [r | e]; simpl; rewrite IH by lia; reflexivity.
Qed.

Lemma send_each_length server this s msgs : forall w,
  length (fst (send_each server this s msgs w)) = length msgs.
Proof.
  induction msgs as [| m msgs IH]; intros w; [reflexivity |]. simpl.
  destruct (sendMessage server this s m w) as [o w1].
  specialize (IH w1). destruct (send_each server this s msgs w1) as [os w2].
  simpl in IH |- *. now rewrite IH.
Qed.

Lemma pairs_length (done : list (value * value)) :
  length (concat (map (fun p => exchange (fst p) (snd p)) done))
  = (2 * length done)%nat.
Proof. induction done as [| p done IH]; simpl; [reflexivity | rewrite IH; lia]. Qed.

Lemma pairs_lookup (done : list (value * value)) : forall i m r,
  done !! i = Some (m, r) ->
  concat (map (fun p => exchange (fst p) (snd p)) done) !! (2 * i)%nat
    = Some (user_turn m) /\
  concat (map (fun p => exchange (fst p) (snd p)) done) !! (2 * i + 1)%nat
    = Some (assistant_turn (reply_of r)).
Proof.
  induction done as [| p done IH]; intros i m r Hi; [destruct i; discriminate |].
  destruct i as [| i]; simpl in Hi.
  - injection Hi as ->. split; reflexivity.
  - destruct (IH i m r Hi) as [Hu Ha].
    replace (2 * S i)%nat with (S (S (2 * i))) by lia.
    replace (2 * S i + 1)%nat with (S (S (2 * i + 1))) by lia.
    split; [exact Hu | exact Ha].
Qed.

(** C2, as stated, fails when a send that failed lies between the
    successful ones: the backend answers the first send 200 with the body
    [null], which leaves the user turn behind, and the second with a
    reply; one send has succeeded and the history has three turns. *)
Lemma one_successful_send_three_turns :
  successes [VStr "a"; VStr "b"]
    (fst (send_each backend_null_then_hello example_sdk fresh_session
            [VStr "a"; VStr "b"] fresh_world))
    = [(VStr "b", VObj [("reply", VStr "hello")])] /\
  exists h w,
    getHistory fresh_session
      (snd (send_each backend_null_then_hello example_sdk fresh_session
              [VStr "a"; VStr "b"] fresh_world)) = (Normal h, w) /\
    array_value w h =
      [user_turn (VStr "a"); user_turn (VStr "b"); assistant_turn (VStr "hello")].
Proof.
  split; [vm_compute; reflexivity |].
  eexists _, _. split; vm_compute; reflexivity.
Qed.

(** C2 (amended): when no successful response has a [null] body, after a
    fresh session has made any sends, of which N succeeded, and no
    [clearHistory], [getHistory()] returns an array of exactly 2N turns;
    the turn at 2i is the user turn of the message of the i-th successful
    send and the turn at 2i+1 the assistant turn of its reply, so roles
    alternate in the order of the successful calls. *)
Theorem getHistory_after_successful_sends
    (server : list request -> request -> fetch_result)
    (this : PlayPathSDK) (prompt : value) (msgs : list value)
    (w0 w1 : world) (s : ChatSession) :
  createChatSession prompt w0 = (Normal s, w1) ->
  success_has_properties server ->
  exists h w3,
    getHistory s (snd (send_each server this s msgs w1)) = (Normal h, w3) /\
    length (array_value w3 h) =
      (2 * length (successes msgs (fst (send_each server this s msgs w1))))%nat /\
    array_value w3 h =
      concat (map (fun p => exchange (fst p) (snd p))
                  (successes msgs (fst (send_each server this s msgs w1)))) /\
    forall i m r,
      successes msgs (fst (send_each server this s msgs w1)) !! i = Some (m, r) ->
      array_value w3 h !! (2 * i)%nat = Some (user_turn m) /\
      array_value w3 h !! (2 * i + 1)%nat = Some (assistant_turn (reply_of r)).
Proof.
  intros Hnew Hsrv.
  destruct (createChatSession_spec prompt w0) as (s' & w1' & Hnew' & Hwf & Hv & _).
  rewrite Hnew in Hnew'. injection Hnew' as <- <-.
  pose proof (send_each_view server this s msgs w1 Hwf Hsrv) as Hv2.
  rewrite Hv, turns_of_successes in Hv2 by apply send_each_length.
  simpl in Hv2.
  destruct (array_spread_spec (history s)
              (snd (send_each server this s msgs w1)))
    as (w3 & Hsp & _ & _ & _ & _ & Hval).
  eexists _, w3. unfold getHistory. split; [exact Hsp |].
  fold (history_view (snd (send_each server this s msgs w1)) s) in Hval.
  rewrite Hval, Hv2.
  split; [apply pairs_length | split; [reflexivity |]].
  intros i m r. apply pairs_lookup.
Qed.

Lemma getHistory_after_successful_sends_witness :
  exists h w3,
    getHistory fresh_session
      (snd (send_each backend_hello example_sdk fresh_session
              [VStr "a"; VStr ""; VStr "b"] fresh_world)) = (Normal h, w3) /\
    array_value w3 h =
      [user_turn (VStr "a"); assistant_turn (VStr "hello");
       user_turn (VStr "b"); assistant_turn (VStr "hello")].
Proof.
  destruct (getHistory_after_successful_sends backend_hello example_sdk
              VUndefined [VStr "a"; VStr ""; VStr "b"] empty_world fresh_world
              fresh_session fresh_session_made backend_hello_has_properties)
    as (h & w3 & Hget & _ & Hval & _).
  exists h, w3. split; [exact Hget |].
  rewrite Hval. vm_compute. reflexivity.
Defined.

(** ** Failures of the transport *)




(** ** Validation and request body of [ragChat] *)

(** C5: when [params] has no [message] field, or has the empty string
    there, [ragChat] throws a [PlayPathError] with status 400 and the world
    is as before: no request has been issued. *)
Theorem ragChat_requires_message
    (server : list request -> request -> fetch_result)
    (this : PlayPathSDK) (props : list (string * value)) (w : world) :
  own_prop "message" props = None \/ own_prop "message" props = Some (VStr "") ->
  ragChat server this (VObj props) w =
    (Throw (ThrowPlayPath {| message := "Message is required";
                             status := Some 400; data := DataValue VNull |}), w) /\
  requests (snd (ragChat server this (VObj props) w)) = requests w.
Proof.
  intros H.
  assert (Hr : ragChat server this (VObj props) w =
               (Throw (validation_failure "Message is required"), w)).
  { apply ragChat_invalid; [reflexivity |].
    unfold field. simpl. destruct H as [-> | ->]; reflexivity. }
  rewrite Hr. split; reflexivity.
Qed.

Lemma ragChat_requires_message_witness :
  ragChat backend_hello example_sdk (VObj [("message", VStr "")]) empty_world =
    (Throw (ThrowPlayPath {| message := "Message is required";
                             status := Some 400; data := DataValue VNull |}),
     empty_world) /\
  requests (snd (ragChat backend_hello example_sdk
                   (VObj [("message", VStr "")]) empty_world)) = [].
Proof.
  apply (ragChat_requires_message backend_hello example_sdk
           [("message", VStr "")] empty_world).
  right. reflexivity.
Defined.

Lemma truthy_field_own props k :
  truthy (field (VObj props) k) = true ->
  own_prop k props = Some (field (VObj props) k).
Proof.
  unfold field. simpl. destruct (own_prop k props); [reflexivity | discriminate].
Qed.

Lemma absent_field_falsy props k :
  own_prop k props = None -> truthy (field (VObj props) k) = false.
Proof. unfold field. simpl. now intros ->. Qed.

(** C6, as stated, fails for a field that is provided but falsy: a
    [system_prompt] that is the empty string is a field of [params], yet
    the body sent has the message only. *)
Lemma ragChat_drops_empty_system_prompt :
  own_prop "system_prompt" [("message", VStr "hi"); ("system_prompt", VStr "")]
    = Some (VStr "") /\
  map req_body
    (requests (snd (ragChat backend_hello example_sdk
                      (VObj [("message", VStr "hi"); ("system_prompt", VStr "")])
                      empty_world)))
    = [Some (VObj [("message", VStr "hi")])].
Proof. vm_compute. split; reflexivity. Qed.

(** C6 (amended): for [params] with a truthy (for a string: non-empty) message,
    [ragChat] issues one POST to the chat endpoint whose body holds the
    message, then [history] and [system_prompt] each exactly when [params]
    has a truthy one: a truthy field is sent, a field that is falsy or
    absent from [params] is absent from the body, every field of the body
    is one of the three, comes from [params] and is not [null].  The parsed body of a successful response is
    returned as it is. *)
Theorem ragChat_body_and_reply
    (server : list request -> request -> fetch_result)
    (this : PlayPathSDK) (props : list (string * value)) (w : world) :
  truthy (field (VObj props) "message") = true ->
  exists rq body,
    requests (snd (ragChat server this (VObj props) w)) = requests w ++ [rq] /\
    req_url rq = baseUrl this +:+ "/api/rag/chat" /\
    req_method rq = Some "POST" /\
    req_body rq = Some (VObj body) /\
    body =
      [("message", json_of (field (VObj props) "message"))]
      ++ (if truthy (field (VObj props) "history")
          then [("history", json_of (field (VObj props) "history"))] else [])
      ++ (if truthy (field (VObj props) "system_prompt")
          then [("system_prompt", json_of (field (VObj props) "system_prompt"))]
          else []) /\
    own_prop "message" body = Some (json_of (field (VObj props) "message")) /\
    (truthy (field (VObj props) "history") = true ->
     own_prop "history" body = Some (json_of (field (VObj props) "history"))) /\
    (truthy (field (VObj props) "system_prompt") = true ->
     own_prop "system_prompt" body
     = Some (json_of (field (VObj props) "system_prompt"))) /\
    (truthy (field (VObj props) "history") = false ->
     own_prop "history" body = None) /\
    (truthy (field (VObj props) "system_prompt") = false ->
     own_prop "system_prompt" body = None) /\
    (own_prop "history" props = None -> own_prop "history" body = None) /\
    (own_prop "system_prompt" props = None ->
     own_prop "system_prompt" body = None) /\
    (forall k v, own_prop k body = Some v ->
       v <> VNull /\
       (k = "message" \/ k = "history" \/ k = "system_prompt") /\
       exists x, own_prop k props = Some x /\ v = json_of x) /\
    (forall r d,
       server (requests w) rq = FetchResolves r ->
       resp_ok r = true -> resp_json r = inr d ->
       fst (ragChat server this (VObj props) w) = Normal d).
Proof.
  intros Hm.
  pose proof (ragChat_valid server this (VObj props) w eq_refl Hm) as Hrun.
  exists (request_config this "/api/rag/chat" (chat_options (VObj props))).
  eexists. rewrite Hrun, _request_world.
  split; [reflexivity |]. split; [reflexivity |]. split; [reflexivity |].
  split; [reflexivity |]. split; [reflexivity |].
  split; [reflexivity |].
  split; [intros ->;
          destruct (truthy (field (VObj props) "system_prompt")); reflexivity |].
  split; [intros ->;
          destruct (truthy (field (VObj props) "history")); reflexivity |].
  split; [intros ->;
          destruct (truthy (field (VObj props) "system_prompt")); reflexivity |].
  split; [intros ->;
          destruct (truthy (field (VObj props) "history")); reflexivity |].
  split; [| split; [| split]].
  - intros Habs. rewrite (absent_field_falsy _ _ Habs).
    destruct (truthy (field (VObj props) "system_prompt")); reflexivity.
  - intros Habs. rewrite (absent_field_falsy _ _ Habs).
    destruct (truthy (field (VObj props) "history")); reflexivity.
  - intros k v.
    destruct (truthy (field (VObj props) "history")) eqn:Hh;
      destruct (truthy (field (VObj props) "system_prompt")) eqn:Hp; simpl;
      repeat match goal with
        | |- context [String.eqb k ?key] =>
            destruct (String.eqb_spec k key) as [-> | _]; cbv iota;
            [intros [= <-];
             (split; [apply truthy_json_not_null; assumption |]);
             (split; [auto |]);
             eexists; (split; [apply truthy_field_own; assumption | reflexivity])
            |]
        end;
      discriminate.
  - intros r d Hr Hok Hj. now apply (_request_success _ _ _ _ _ r).
Qed.

Lemma ragChat_body_and_reply_witness :
  fst (ragChat backend_hello example_sdk (VObj [("message", VStr "hi")])
               empty_world) = Normal (VObj [("reply", VStr "hello")]) /\
  map req_body
    (requests (snd (ragChat backend_hello example_sdk
                      (VObj [("message", VStr "hi")]) empty_world)))
    = [Some (VObj [("message", VStr "hi")])].
Proof.
  destruct (ragChat_body_and_reply backend_hello example_sdk
              [("message", VStr "hi")] empty_world eq_refl)
    as (rq & body & Hlog & _ & _ & Hbody & Heq & _ & _ & _ & _ & _ & _ & _ & _
        & Hreply).
  split.
  - exact (Hreply _ _ eq_refl eq_refl eq_refl).
  - rewrite Hlog. simpl. rewrite Hbody, Heq. reflexivity.
Defined.

(** ** Validation of [createItem] *)

(** C7, as stated, fails for an item that supplies a title that is the
    empty string: [!item.title] holds of it, the item is rejected and no
    request goes out. *)
Lemma createItem_empty_title_rejected :
  own_prop "title" [("title", VStr "")] = Some (VStr "") /\
  createItem backend_hello example_sdk (VObj [("title", VStr "")]) empty_world =
    (Throw (ThrowPlayPath {| message := "Either title or text is required";
                             status := Some 400; data := DataValue VNull |}),
     empty_world) /\
  requests (snd (createItem backend_hello example_sdk
                   (VObj [("title", VStr "")]) empty_world)) = [].
Proof. vm_compute. repeat split. Qed.

(** C7 (amended): [createItem] throws a [PlayPathError] with status 400,
    and issues no request, when both [title] and [text] are falsy (absent,
    the empty string, [null], [0] or [false]), in particular when the item
    has neither field; an item with a truthy title or text is passed to
    the transport, as one POST of the serialised item to the items
    endpoint. *)
Theorem createItem_requires_title_or_text
    (server : list request -> request -> fetch_result)
    (this : PlayPathSDK) (props : list (string * value)) (w : world) :
  (truthy (field (VObj props) "title") = false ->
   truthy (field (VObj props) "text") = false ->
   createItem server this (VObj props) w =
     (Throw (ThrowPlayPath {| message := "Either title or text is required";
                              status := Some 400; data := DataValue VNull |}), w)) /\
  (own_prop "title" props = None -> own_prop "text" props = None ->
   createItem server this (VObj props) w =
     (Throw (ThrowPlayPath {| message := "Either title or text is required";
                              status := Some 400; data := DataValue VNull |}), w)) /\
  (truthy (field (VObj props) "title") = true \/
   truthy (field (VObj props) "text") = true ->
   createItem server this (VObj props) w =
     _request server this "/api/items"
       {| opt_method := Some "POST"; opt_headers := None;
          opt_body := JSON_stringify (VObj props) |} w /\
   requests (snd (createItem server this (VObj props) w)) =
     requests w ++
       [{| req_url := baseUrl this +:+ "/api/items";
           req_method := Some "POST";
           req_headers := spread (headers this) [];
           req_body := JSON_stringify (VObj props) |}]).
Proof.
  assert (Hbad :
    truthy (field (VObj props) "title") = false ->
    truthy (field (VObj props) "text") = false ->
    createItem server this (VObj props) w =
      (Throw (validation_failure "Either title or text is required"), w)).
  { intros Ht Hx. unfold createItem. unfold_M.
    rewrite !(get_prop_field (VObj props) _ eq_refl). cbv beta iota.
    rewrite Ht. simpl negb. cbv beta iota. rewrite Hx. reflexivity. }
  split; [exact Hbad | split].
  - intros Ht Hx. apply Hbad; now apply absent_field_falsy.
  - intros Hok.
    assert (Hrun : createItem server this (VObj props) w =
              _request server this "/api/items"
                {| opt_method := Some "POST"; opt_headers := None;
                   opt_body := JSON_stringify (VObj props) |} w).
    { unfold createItem. unfold_M.
      rewrite !(get_prop_field (VObj props) _ eq_refl). cbv beta iota.
      destruct (truthy (field (VObj props) "title")) eqn:Ht; simpl negb;
        cbv beta iota; [reflexivity |].
      destruct Hok as [Hok | Hok]; [discriminate | rewrite Hok; reflexivity]. }
    split; [exact Hrun |]. rewrite Hrun, _request_world. reflexivity.
Qed.

Lemma createItem_requires_title_or_text_witness :
  createItem backend_hello example_sdk (VObj []) empty_world =
    (Throw (ThrowPlayPath {| message := "Either title or text is required";
                             status := Some 400; data := DataValue VNull |}),
     empty_world) /\
  map req_body
    (requests (snd (createItem backend_hello example_sdk
                      (VObj [("text", VStr "notes")]) empty_world)))
    = [Some (VObj [("text", VStr "notes")])].
Proof.
  split.
  - exact (proj1 (proj2 (createItem_requires_title_or_text backend_hello
                           example_sdk [] empty_world)) eq_refl eq_refl).
  - destruct (proj2 (proj2 (createItem_requires_title_or_text backend_hello
                              example_sdk [("text", VStr "notes")] empty_world))
                (or_intror eq_refl)) as [_ Hlog].
    rewrite Hlog. reflexivity.
Defined.

(** ** [formatChatHistory] *)

Lemma formatTurn_record props :
  formatTurn (VObj props) =
  Normal (VObj [("role", first_truthy ["role"] props (VStr "user"));
                ("text", first_truthy ["text"; "message"; "content"] props
                           (VStr ""))]).
Proof.
  unfold formatTurn, or_else, get_prop. unfold_M. simpl.
  destruct (truthy (default VUndefined (own_prop "role" props))) eqn:Hr;
    destruct (truthy (default VUndefined (own_prop "text" props))) eqn:Ht;
    destruct (truthy (default VUndefined (own_prop "message" props))) eqn:Hm;
    destruct (truthy (default VUndefined (own_prop "content" props))) eqn:Hc;
    repeat (progress (simpl; rewrite ?Hr, ?Ht, ?Hm, ?Hc));
    reflexivity.
Qed.

Lemma first_truthy_present keys props dflt :
  (forall k v, own_prop k props = Some v -> truthy v = true) ->
  first_truthy keys props dflt = spec_first_present keys props dflt.
Proof.
  intros Hall. induction keys as [| k keys IH]; [reflexivity |]. simpl.
  destruct (own_prop k props) as [v |] eqn:Hk; simpl.
  - now rewrite (Hall _ _ Hk).
  - exact IH.
Qed.

Lemma array_map_records f (g : list (string * value) -> value) records :
  (forall props, f (VObj props) = Normal (g props)) ->
  array_map f (map VObj records) = Normal (map g records).
Proof.
  intros Hf. induction records as [| props records IH]; [reflexivity |].
  simpl. rewrite Hf. unfold_M. now rewrite IH.
Qed.

(** C8, as stated, fails for a record whose [text] is present but empty:
    the first present field is [text], but [||] skips it and the turn
    takes the text of [message]. *)
Lemma formatChatHistory_skips_empty_text :
  formatChatHistory (VArr [VObj [("text", VStr ""); ("message", VStr "y")]])
    = Normal (VArr [user_turn (VStr "y")]) /\
  spec_formatTurn [("text", VStr ""); ("message", VStr "y")]
    = user_turn (VStr "") /\
  formatChatHistory (VArr [VObj [("text", VStr ""); ("message", VStr "y")]])
    <> Normal (VArr [spec_formatTurn [("text", VStr ""); ("message", VStr "y")]]).
Proof. vm_compute. repeat split. discriminate. Qed.

(** C8 (amended): [formatChatHistory] maps each record of a list to the
    turn whose role is the record's [role] when that is truthy and "user"
    otherwise, and whose text is the first truthy one of the record's
    [text], [message] and [content], or the empty string.  For records
    whose fields are all truthy this is the first present field.
    [[{content:"x"}]] gives [[{role:"user", text:"x"}]] and
    [[{role:"assistant", message:"y"}]] gives
    [[{role:"assistant", text:"y"}]]. *)
Theorem formatChatHistory_turns (records : list (list (string * value))) :
  formatChatHistory (VArr (map VObj records)) =
    Normal (VArr (map (fun props =>
                         VObj [("role", first_truthy ["role"] props (VStr "user"));
                               ("text", first_truthy ["text"; "message"; "content"]
                                          props (VStr ""))])
                      records)) /\
  (Forall (fun props => forall k v, own_prop k props = Some v -> truthy v = true)
          records ->
   formatChatHistory (VArr (map VObj records)) =
     Normal (VArr (map spec_formatTurn records))) /\
  formatChatHistory (VArr [VObj [("content", VStr "x")]]) =
    Normal (VArr [VObj [("role", VStr "user"); ("text", VStr "x")]]) /\
  formatChatHistory (VArr [VObj [("role", VStr "assistant"); ("message", VStr "y")]]) =
    Normal (VArr [VObj [("role", VStr "assistant"); ("text", VStr "y")]]).
Proof.
  assert (Hmap : formatChatHistory (VArr (map VObj records)) =
    Normal (VArr (map (fun props =>
                         VObj [("role", first_truthy ["role"] props (VStr "user"));
                               ("text", first_truthy ["text"; "message"; "content"]
                                          props (VStr ""))])
                      records))).
  { unfold formatChatHistory, call_map.
    now rewrite (array_map_records _ _ _ formatTurn_record). }
  split; [exact Hmap | split; [| split; reflexivity]].
  intros Hall. rewrite Hmap. do 2 f_equal.
  apply map_ext_Forall. eapply Forall_impl; [exact Hall |].
  intros props Hp. simpl in Hp. unfold spec_formatTurn.
  now rewrite !(first_truthy_present _ _ _ Hp).
Qed.

Lemma formatChatHistory_turns_witness :
  formatChatHistory
    (VArr [VObj [("content", VStr "Hello"); ("role", VStr "user")];
           VObj [("message", VStr "Hi there"); ("role", VStr "assistant")]])
  = Normal (VArr [user_turn (VStr "Hello"); assistant_turn (VStr "Hi there")]).
Proof.
  refine (proj1 (proj2 (formatChatHistory_turns
            [[("content", VStr "Hello"); ("role", VStr "user")];
             [("message", VStr "Hi there"); ("role", VStr "assistant")]])) _).
  repeat constructor; intros k v; simpl;
    repeat (destruct (String.eqb k _); [intros [= <-]; reflexivity |]);
    discriminate.
Defined.

Lemma formatTurn_total msg :
  nullish msg = false -> exists turn, formatTurn msg = Normal turn.
Proof.
  intros Hn. destruct msg; try discriminate Hn;
    try (eexists; reflexivity).
  rewrite formatTurn_record. eauto.
Qed.

Lemma formatTurn_nullish msg :
  nullish msg = true -> exists e, formatTurn msg = Throw e.
Proof. destruct msg; try discriminate; intros _; eexists; reflexivity. Qed.

Lemma array_map_total elems :
  Forall (fun e => nullish e = false) elems ->
  exists turns,
    array_map formatTurn elems = Normal turns /\ length turns = length elems.
Proof.
  induction 1 as [| e elems He _ (turns & IH & Hlen)].
  - exists []. split; reflexivity.
  - destruct (formatTurn_total e He) as [t Ht].
    exists (t :: turns). simpl. rewrite Ht. unfold_M. rewrite IH.
    split; [reflexivity | simpl; now rewrite Hlen].
Qed.

Lemma array_map_Normal_inv elems : forall turns,
  array_map formatTurn elems = Normal turns ->
  Forall (fun e => nullish e = false) elems.
Proof.
  induction elems as [| e elems IH]; intros turns Hrun; [constructor |].
  simpl in Hrun. unfold_M.
  destruct (nullish e) eqn:Hn.
  - destruct (formatTurn_nullish e Hn) as [err Herr].
    rewrite Herr in Hrun. discriminate.
  - constructor; [exact Hn |].
    destruct (formatTurn e); [| discriminate].
    destruct (array_map formatTurn elems) as [ts |] eqn:Hts; [| discriminate].
    now apply (IH ts).
Qed.

(** C9, as stated, fails on a [null] element, where reading [msg.role]
    throws, and on an argument that is not a list, which has no [map]. *)
Lemma formatChatHistory_throws_on_null_element :
  formatChatHistory (VArr [VObj []; VNull]) =
    Throw (TypeError "Cannot read properties of null (reading 'role')") /\
  formatChatHistory (VObj []) =
    Throw (TypeError "messages.map is not a function").
Proof. vm_compute. split; reflexivity. Qed.

(** C9 (amended): [formatChatHistory] is a function of its argument alone
    (it reads and writes nothing else) and returns a list of as many turns
    for every list none of whose elements is [null] or [undefined], records
    that lack every field or hold [null] or non-string values included;
    and those are the only inputs it returns on. *)
Theorem formatChatHistory_total_on_records :
  (forall elems,
     Forall (fun e => nullish e = false) elems ->
     exists turns,
       formatChatHistory (VArr elems) = Normal (VArr turns) /\
       length turns = length elems) /\
  (forall messages result,
     formatChatHistory messages = Normal result ->
     exists elems,
       messages = VArr elems /\ Forall (fun e => nullish e = false) elems).
Proof.
  split.
  - intros elems Hall. destruct (array_map_total elems Hall) as (turns & Hrun & Hlen).
    exists turns. unfold formatChatHistory, call_map. rewrite Hrun.
    split; [reflexivity | exact Hlen].
  - intros messages result. unfold formatChatHistory, call_map.
    destruct messages as [| | b | n | str | elems | props]; try discriminate.
    destruct (array_map formatTurn elems) as [turns |] eqn:Hrun; [| discriminate].
    intros _. exists elems. split; [reflexivity |].
    now apply (array_map_Normal_inv elems turns).
Qed.

Lemma formatChatHistory_total_on_records_witness :
  exists turns,
    formatChatHistory
      (VArr [VObj []; VObj [("text", VNull); ("role", VNum 7)]; VStr "note"])
      = Normal (VArr turns) /\
    length turns = 3%nat.
Proof.
  apply (proj1 formatChatHistory_total_on_records).
  repeat constructor.
Defined.

(** ** The history in the chat request *)

Lemma chat_params_message s msg snapshot :
  field (chat_params s msg snapshot) "message" = msg.
Proof. unfold chat_params. destruct (truthy (systemPrompt s)); reflexivity. Qed.

Lemma chat_params_history s msg snapshot :
  field (chat_params s msg snapshot) "history" = VArr snapshot.
Proof. unfold chat_params. destruct (truthy (systemPrompt s)); reflexivity. Qed.

Lemma chat_params_not_nullish s msg snapshot :
  nullish (chat_params s msg snapshot) = false.
Proof. reflexivity. Qed.

Lemma chat_body_history s msg snapshot :
  exists body,
    chat_body (chat_params s msg snapshot) = VObj body /\
    own_prop "history" body = Some (json_of (VArr snapshot)).
Proof.
  unfold chat_body. rewrite chat_params_history. eexists.
  split; reflexivity.
Qed.

(** The requests a send adds: none for a falsy message, else the one chat
    request built from the copied history. *)
Lemma sendMessage_requests server this s msg w :
  requests (snd (sendMessage server this s msg w)) =
  if truthy msg
  then requests w ++
         [request_config this "/api/rag/chat"
            (chat_options (chat_params s msg (history_view w s)))]
  else requests w.
Proof.
  rewrite sendMessage_unfold. cbv zeta.
  destruct (array_spread_spec (history s) w) as (w1 & Hsp & _ & _ & Hreq & _).
  rewrite Hsp. simpl snd.
  pose proof (chat_params_message s msg (history_view w s)) as Hmsg.
  destruct (truthy msg) eqn:Hm.
  - rewrite ragChat_valid by (rewrite ?Hmsg; auto).
    pose proof (_request_world server this "/api/rag/chat"
                  (chat_options (chat_params s msg (history_view w s))) w1) as Hw.
    destruct (_request server this "/api/rag/chat"
                (chat_options (chat_params s msg (history_view w s))) w1)
      as [[resp | e] w2]; simpl in Hw; subst w2.
    + destruct (get_prop resp "reply"); simpl; now rewrite Hreq.
    + simpl. now rewrite Hreq.
  - rewrite ragChat_invalid by (rewrite ?Hmsg; auto). simpl. exact Hreq.
Qed.

(** C10: the chat request a send issues always has a [history] field, the
    JSON of the session's turns at the call; for a falsy message no request
    is issued.  The first send of a fresh session sends [history] as the
    empty array. *)
Theorem sendMessage_sends_history
    (server : list request -> request -> fetch_result)
    (this : PlayPathSDK) (s : ChatSession) (msg : value) (w : world) :
  ((truthy msg = false /\
    requests (snd (sendMessage server this s msg w)) = requests w) \/
   (truthy msg = true /\
    exists rq body,
      requests (snd (sendMessage server this s msg w)) = requests w ++ [rq] /\
      req_body rq = Some (VObj body) /\
      own_prop "history" body = Some (json_of (VArr (history_view w s))))) /\
  (forall prompt w0,
     createChatSession prompt w0 = (Normal s, w) ->
     truthy msg = true ->
     exists rq body,
       requests (snd (sendMessage server this s msg w)) = requests w0 ++ [rq] /\
       req_body rq = Some (VObj body) /\
       own_prop "history" body = Some (VArr [])).
Proof.
  pose proof (sendMessage_requests server this s msg w) as Hlog.
  destruct (chat_body_history s msg (history_view w s)) as (body & Hbody & Hh).
  split.
  - destruct (truthy msg); [right | left]; split; try reflexivity; [| exact Hlog].
    eexists _, body. split; [exact Hlog |]. split; [| exact Hh].
    simpl. now rewrite Hbody.
  - intros prompt w0 Hnew Hm. rewrite Hm in Hlog.
    destruct (createChatSession_spec prompt w0) as (s' & w' & Hnew' & _ & Hv & Hreq).
    rewrite Hnew in Hnew'. injection Hnew' as <- <-.
    rewrite Hv in Hh. rewrite <- Hreq.
    eexists _, body. split; [exact Hlog |]. split; [| exact Hh].
    simpl. now rewrite Hbody.
Qed.

Lemma sendMessage_sends_history_witness :
  exists rq body,
    requests (snd (sendMessage backend_hello example_sdk fresh_session
                     (VStr "hi") fresh_world)) = [] ++ [rq] /\
    req_body rq = Some (VObj body) /\
    own_prop "history" body = Some (VArr []).
Proof.
  exact (proj2 (sendMessage_sends_history backend_hello example_sdk
                  fresh_session (VStr "hi") fresh_world)
           VUndefined empty_world fresh_session_made eq_refl).
Defined.

(** ** The copy [getHistory] returns *)

(** C4, as stated, fails for the turn objects: the returned array is new,
    but its elements are the session's own turn objects, so writing a
    property of one through the returned array changes the session's
    history. *)
Lemma getHistory_shares_turn_objects :
  exists h w,
    getHistory fresh_session (after_first_send backend_hello) = (Normal h, w) /\
    history_view w fresh_session =
      [user_turn (VStr "hi"); assistant_turn (VStr "hello")] /\
    history_view (snd (mutate h (SetField 0 "text" (VStr "tampered")) w))
                 fresh_session =
      [user_turn (VStr "tampered"); assistant_turn (VStr "hello")].
Proof.
  eexists _, _. split; [vm_compute; reflexivity |].
  vm_compute. split; reflexivity.
Qed.

(** C4 (amended): [getHistory()] returns a new array, distinct from the
    session's, that reads as the current turn sequence and holds the same
    turn objects (a shallow copy); it leaves the session's history as it
    is, and so does any change a caller makes to the returned array
    itself.  The chat request of [sendMessage] carries the turn sequence
    by value, as it was at the call. *)
Theorem getHistory_shallow_copy (s : ChatSession) (w : world) :
  wf_session w s ->
  exists h w',
    getHistory s w = (Normal h, w') /\
    h <> history s /\
    array_value w' h = history_view w s /\
    array_at w' h = array_at w (history s) /\
    history_view w' s = history_view w s /\
    (forall elems,
       history_view (snd (mutate h (SetElements elems) w')) s
       = history_view w s) /\
    (forall server this msg,
       truthy msg = true ->
       exists rq body,
         requests (snd (sendMessage server this s msg w)) = requests w ++ [rq] /\
         req_body rq = Some (VObj body) /\
         own_prop "history" body = Some (json_of (VArr (history_view w s)))).
Proof.
  intros Hwf.
  destruct (array_spread_spec (history s) w)
    as (w' & Hsp & Hobj & Harr & _ & Hat & Hval).
  destruct (session_frame s w w' _ Hwf Hobj Harr) as (_ & Hv & Hat').
  assert (Hne : length (arrays w) <> history s) by (destruct Hwf; lia).
  exists (length (arrays w)), w'.
  split; [exact Hsp |]. split; [exact Hne |]. split; [exact Hval |].
  split; [exact Hat |]. split; [exact Hv |]. split.
  - intros elems. rewrite <- Hv. unfold history_view.
    apply array_value_ext; [reflexivity |].
    unfold array_at. simpl. now rewrite list_lookup_insert_ne.
  - intros server this msg Hm.
    pose proof (sendMessage_requests server this s msg w) as Hlog.
    rewrite Hm in Hlog.
    destruct (chat_body_history s msg (history_view w s)) as (body & Hbody & Hh).
    eexists _, body. split; [exact Hlog |]. split; [| exact Hh].
    simpl. now rewrite Hbody.
Qed.

Lemma after_first_send_wf :
  wf_session (after_first_send backend_hello) fresh_session.
Proof. vm_compute. split; repeat constructor. Defined.

Lemma getHistory_shallow_copy_witness :
  exists h w',
    getHistory fresh_session (after_first_send backend_hello) = (Normal h, w') /\
    h <> history fresh_session /\
    array_value w' h = history_view (after_first_send backend_hello) fresh_session /\
    history_view (snd (mutate h (SetElements []) w')) fresh_session
    = history_view (after_first_send backend_hello) fresh_session.
Proof.
  destruct (getHistory_shallow_copy fresh_session
              (after_first_send backend_hello) after_first_send_wf)
    as (h & w' & Hg & Hne & Hval & _ & _ & Hmut & _).
  exists h, w'.
  split; [exact Hg | split; [exact Hne | split; [exact Hval | apply Hmut]]].
Defined.

(** ** The public methods as callers of the transport *)

Lemma header_set_prop_eq k (v : string) hs : header k (set_prop k v hs) = Some v.
Proof.
  induction hs as [| [k' v'] hs IH]; simpl.
  - now rewrite String.eqb_refl.
  - destruct (String.eqb k k') eqn:E; simpl; rewrite ?String.eqb_refl, ?E; auto.
Qed.

Lemma header_set_prop_ne k k' (v : string) hs :
  k <> k' -> header k' (set_prop k v hs) = header k' hs.
Proof.
  intros Hne. assert (Hkk : String.eqb k' k = false).
  { apply String.eqb_neq. congruence. }
  induction hs as [| [k0 v0] hs IH]; simpl.
  - now rewrite Hkk.
  - destruct (String.eqb_spec k k0) as [<- | Hk0]; simpl.
    + now rewrite Hkk.
    + now rewrite IH.
Qed.

Lemma header_spread_absent k (a b : list (string * string)) :
  header k b = None -> header k (spread a b) = header k a.
Proof.
  unfold spread. revert a.
  induction b as [| [k' v'] b IH]; intros a Hb; [reflexivity |].
  simpl in Hb |- *. destruct (String.eqb_spec k k') as [-> | Hne];
    [discriminate |].
  rewrite (IH _ Hb). apply header_set_prop_ne. congruence.
Qed.

Lemma header_spread_present k (a b : list (string * string)) :
  is_Some (header k a) -> is_Some (header k (spread a b)).
Proof.
  unfold spread. revert a.
  induction b as [| [k' v'] b IH]; intros a Ha; [exact Ha |].
  simpl. apply IH.
  destruct (String.eqb_spec k' k) as [-> | Hne].
  - rewrite header_set_prop_eq. eauto.
  - now rewrite header_set_prop_ne.
Qed.

Lemma issued_since_app w w' reqs :
  requests w' = requests w ++ reqs -> issued_since w w' = reqs.
Proof. intros H. unfold issued_since. rewrite H. apply drop_app_length. Qed.

(** [createItem] on any argument: it touches the request log only, with
    at most the one request of the item. *)
Lemma createItem_frame server this item w :
  let w' := snd (createItem server this item w) in
  objects w' = objects w /\ arrays w' = arrays w /\
  (requests w' = requests w \/
   requests w' = requests w ++
     [request_config this "/api/items"
        {| opt_method := Some "POST"; opt_headers := None;
           opt_body := JSON_stringify item |}]).
Proof.
  unfold createItem. unfold_M.
  destruct (get_prop item "title") as [title | e]; simpl; [| auto].
  destruct (truthy title); simpl.
  - rewrite _request_world. simpl. auto.
  - destruct (get_prop item "text") as [text | e]; simpl; [| auto].
    destruct (truthy text); simpl; [| auto].
    rewrite _request_world. simpl. auto.
Qed.

(** What a call of a public method leaves in the world. *)
Lemma perform_frame server this c w :
  let w' := snd (perform server this c w) in
  objects w' = objects w /\ arrays w' = arrays w /\
  (requests w' = requests w \/
   exists endpoint options,
     opt_headers options = None /\
     requests w' = requests w ++ [request_config this endpoint options]).
Proof.
  destruct c as [params | | id | item | id item | id]; simpl.
  - destruct (ragChat_frame server this params w) as (Ho & Ha & [Hr | Hr]);
      (split; [exact Ho | split; [exact Ha |]]); [left; exact Hr | right].
    exists "/api/rag/chat", (chat_options params). split; [reflexivity | exact Hr].
  - unfold getItems. rewrite _request_world. simpl.
    split; [reflexivity | split; [reflexivity | right]].
    eexists _, _. split; [| reflexivity]. reflexivity.
  - unfold getItem. unfold_M. destruct (ToString id) as [path | e]; simpl;
      [| auto].
    rewrite _request_world. simpl.
    split; [reflexivity | split; [reflexivity | right]].
    eexists _, _. split; [| reflexivity]. reflexivity.
  - destruct (createItem_frame server this item w) as (Ho & Ha & [Hr | Hr]);
      (split; [exact Ho | split; [exact Ha |]]); [left; exact Hr | right].
    eexists _, _. split; [| exact Hr]. reflexivity.
  - unfold updateItem. unfold_M. destruct (ToString id) as [path | e]; simpl;
      [| auto].
    rewrite _request_world. simpl.
    split; [reflexivity | split; [reflexivity | right]].
    eexists _, _. split; [| reflexivity]. reflexivity.
  - unfold deleteItem. unfold_M. destruct (ToString id) as [path | e]; simpl;
      [| auto].
    rewrite _request_world. simpl.
    split; [reflexivity | split; [reflexivity | right]].
    eexists _, _. split; [| reflexivity]. reflexivity.
Qed.

(** X1: a call of a public method issues at most one request (there is no
    retry), to the base URL followed by a path and with exactly the
    instance's headers; it allocates nothing. *)
Theorem perform_single_request
    (server : list request -> request -> fetch_result)
    (this : PlayPathSDK) (c : api_call) (w : world) :
  objects (snd (perform server this c w)) = objects w /\
  arrays (snd (perform server this c w)) = arrays w /\
  (issued_since w (snd (perform server this c w)) = [] \/
   exists rq path,
     issued_since w (snd (perform server this c w)) = [rq] /\
     req_url rq = baseUrl this +:+ path /\
     req_headers rq = headers this).
Proof.
  destruct (perform_frame server this c w) as (Ho & Ha & [Hr | (ep & opts & Hh & Hr)]).
  - split; [exact Ho | split; [exact Ha | left]]. apply issued_since_app.
    now rewrite Hr, app_nil_r.
  - split; [exact Ho | split; [exact Ha | right]].
    exists (request_config this ep opts), ep.
    split; [now apply issued_since_app |]. split; [reflexivity |].
    simpl. now rewrite Hh.
Qed.

(** X2: after [setApiKey(key)], every request a public method issues
    carries [X-Api-Key: key], whatever key was set before, the empty
    string included, and every other header as before; after
    [setBaseUrl(url)], every request goes to [url] followed by a path, with
    the headers unchanged. *)
Theorem setters_apply_to_requests
    (server : list request -> request -> fetch_result)
    (this : PlayPathSDK) (c : api_call) (w : world) :
  (forall key,
     Forall (fun rq =>
               header "X-Api-Key" (req_headers rq) = Some key /\
               forall k, k <> "X-Api-Key" ->
                         header k (req_headers rq) = header k (headers this))
            (issued_since w (snd (perform server (setApiKey this key) c w)))) /\
  (forall url,
     Forall (fun rq =>
               (exists path, req_url rq = url +:+ path) /\
               req_headers rq = headers this)
            (issued_since w (snd (perform server (setBaseUrl this url) c w)))).
Proof.
  split.
  - intros key.
    destruct (perform_frame server (setApiKey this key) c w)
      as (_ & _ & [Hr | (ep & opts & Hh & Hr)]).
    + rewrite (issued_since_app w _ []) by (now rewrite Hr, app_nil_r).
      constructor.
    + rewrite (issued_since_app w _ _ Hr). repeat constructor; simpl; rewrite Hh.
      * apply header_set_prop_eq.
      * intros k Hk. apply header_set_prop_ne. congruence.
  - intros url.
    destruct (perform_frame server (setBaseUrl this url) c w)
      as (_ & _ & [Hr | (ep & opts & Hh & Hr)]).
    + rewrite (issued_since_app w _ []) by (now rewrite Hr, app_nil_r).
      constructor.
    + rewrite (issued_since_app w _ _ Hr). repeat constructor; simpl.
      * now exists ep.
      * now rewrite Hh.
Qed.

(** X3: the headers a new instance has: [Content-Type] is always there,
    and is [application/json] unless the configured headers name another;
    a non-empty API key is the [X-Api-Key] header even when the configured
    headers give one; with no API key and no configured [X-Api-Key] the
    header is absent. *)
Theorem constructor_headers (config : PlayPathConfig) :
  is_Some (header "Content-Type" (headers (constructor config))) /\
  (header "Content-Type" (default [] (cfg_headers config)) = None ->
   header "Content-Type" (headers (constructor config))
     = Some "application/json") /\
  (forall key, cfg_apiKey config = Some key -> key <> "" ->
     header "X-Api-Key" (headers (constructor config)) = Some key /\
     apiKey (constructor config) = key) /\
  (default "" (cfg_apiKey config) = "" ->
   header "X-Api-Key" (default [] (cfg_headers config)) = None ->
   header "X-Api-Key" (headers (constructor config)) = None).
Proof.
  unfold constructor. simpl.
  split; [| split; [| split]].
  - destruct (String.eqb (default "" (cfg_apiKey config)) "").
    + apply header_spread_present. simpl. eauto.
    + rewrite header_set_prop_ne by discriminate.
      apply header_spread_present. simpl. eauto.
  - intros Hnone.
    destruct (String.eqb (default "" (cfg_apiKey config)) "");
      rewrite ?header_set_prop_ne by discriminate;
      now rewrite header_spread_absent.
  - intros key Hkey Hne. rewrite Hkey. simpl.
    destruct (String.eqb_spec key ""); [contradiction |].
    split; [apply header_set_prop_eq | reflexivity].
  - intros Hkey Hnone. rewrite Hkey. simpl.
    now rewrite header_spread_absent.
Qed.

Lemma constructor_headers_witness :
  header "X-Api-Key" (headers example_sdk) = Some "key" /\
  header "Content-Type" (headers example_sdk) = Some "application/json" /\
  header "X-Api-Key"
    (headers (constructor {| cfg_baseUrl := None; cfg_apiKey := None;
                             cfg_headers := Some [("Accept", "text/plain")] |}))
    = None.
Proof.
  split; [| split].
  - apply (proj1 (proj2 (proj2 (constructor_headers
             {| cfg_baseUrl := Some "https://playpath.io";
                cfg_apiKey := Some "key"; cfg_headers := None |})))
             "key" eq_refl).
    discriminate.
  - exact (proj1 (proj2 (constructor_headers
             {| cfg_baseUrl := Some "https://playpath.io";
                cfg_apiKey := Some "key"; cfg_headers := None |})) eq_refl).
  - exact (proj2 (proj2 (proj2 (constructor_headers
             {| cfg_baseUrl := None; cfg_apiKey := None;
                cfg_headers := Some [("Accept", "text/plain")] |})))
             eq_refl eq_refl).
Defined.

Lemma setters_apply_to_requests_witness :
  Forall (fun rq =>
            header "X-Api-Key" (req_headers rq) = Some "rotated" /\
            header "Content-Type" (req_headers rq) = Some "application/json")
         (issued_since empty_world
            (snd (perform backend_hello (setApiKey example_sdk "rotated")
                    GetItems empty_world))).
Proof.
  eapply Forall_impl;
    [exact (proj1 (setters_apply_to_requests backend_hello example_sdk GetItems
                     empty_world) "rotated") |].
  intros rq [Hkey Hrest]. split; [exact Hkey |].
  rewrite Hrest by discriminate. reflexivity.
Defined.

(** X4: whatever [_request] throws is a [PlayPathError]; its status is
    null, or it is the status of the response received, which is then not
    a success status. *)
Theorem _request_throws_PlayPathError
    (server : list request -> request -> fetch_result)
    (this : PlayPathSDK) (endpoint : string) (options : request_options)
    (w : world) (e : thrown) :
  fst (_request server this endpoint options w) = Throw e ->
  exists pe,
    e = ThrowPlayPath pe /\
    (status pe = None \/
     exists r,
       server (requests w) (request_config this endpoint options)
         = FetchResolves r /\
       status pe = Some (resp_status r) /\ resp_ok r = false).
Proof.
  destruct (server (requests w) (request_config this endpoint options))
    as [err | r] eqn:Hs.
  - rewrite (_request_rejects _ _ _ _ _ err Hs). intros [= <-].
    eexists. split; [reflexivity | left; reflexivity].
  - destruct (resp_json r) as [err | d] eqn:Hj.
    + rewrite (_request_unparsed _ _ _ _ _ r err Hs Hj). intros [= <-].
      eexists. split; [reflexivity | left; reflexivity].
    + destruct (resp_ok r) eqn:Hok.
      * now rewrite (_request_success _ _ _ _ _ r d Hs Hj Hok).
      * destruct (nullish d) eqn:Hn.
        -- unfold _request, fetch, json, throw_new. unfold_M.
           rewrite Hs. simpl. rewrite Hj. simpl. rewrite Hok. simpl.
           destruct d; try discriminate Hn; simpl; intros [= <-];
             eexists; (split; [reflexivity | left; reflexivity]).
        -- rewrite (_request_http_failure _ _ _ _ _ r d Hs Hj Hok Hn).
           destruct (new_PlayPathError _ _ _) as [pe | e'] eqn:Hnew;
             intros [= <-]; eexists; (split; [reflexivity |]);
             [right | left; reflexivity].
           exists r. split; [reflexivity | split; [| exact Hok]].
           now apply new_PlayPathError_fields in Hnew.
Qed.

Lemma _request_throws_PlayPathError_witness :
  exists pe,
    ThrowPlayPath {| message := "not found"; status := Some 404;
                     data := DataValue (VObj [("error", VStr "not found")]) |}
      = ThrowPlayPath pe /\
    (status pe = None \/
     exists r,
       backend_not_found (requests empty_world)
         (request_config example_sdk "/api/items/7" no_options)
         = FetchResolves r /\
       status pe = Some (resp_status r) /\ resp_ok r = false).
Proof.
  exact (_request_throws_PlayPathError backend_not_found example_sdk
           "/api/items/7" no_options empty_world _ eq_refl).
Defined.

(** X5: headers given to [_request] in [options] are not merged with the
    instance's headers but replace them: the request carries exactly the
    given headers, so the API key and [Content-Type] go out only if the
    given headers repeat them. *)
Theorem _request_option_headers_replace
    (server : list request -> request -> fetch_result)
    (this : PlayPathSDK) (endpoint : string) (options : request_options)
    (w : world) (given : list (string * string)) :
  opt_headers options = Some given ->
  exists rq,
    issued_since w (snd (_request server this endpoint options w)) = [rq] /\
    req_headers rq = given /\
    (header "X-Api-Key" given = None -> header "X-Api-Key" (req_headers rq) = None).
Proof.
  intros Hgiven. exists (request_config this endpoint options).
  split.
  - apply issued_since_app. now rewrite _request_world.
  - simpl. rewrite Hgiven. auto.
Qed.

Lemma _request_option_headers_replace_witness :
  exists rq,
    issued_since empty_world
      (snd (_request backend_hello example_sdk "/api/items"
              {| opt_method := None;
                 opt_headers := Some [("Accept", "application/json")];
                 opt_body := None |} empty_world)) = [rq] /\
    req_headers rq = [("Accept", "application/json")] /\
    header "X-Api-Key" (req_headers rq) = None.
Proof.
  destruct (_request_option_headers_replace backend_hello example_sdk "/api/items"
              {| opt_method := None;
                 opt_headers := Some [("Accept", "application/json")];
                 opt_body := None |} empty_world _ eq_refl)
    as (rq & Hlog & Hh & Hkey).
  exists rq. split; [exact Hlog | split; [exact Hh | exact (Hkey eq_refl)]].
Defined.

(** X6: [getItems], [getItem], [updateItem] and [deleteItem] validate
    nothing.  [getItems] always issues one request; for an id that
    converts to a string ([null] and [undefined] included) each of the
    other three issues exactly one request, with its method, the path
    ending in that string, and the serialised item as body.  An id that
    does not convert makes the call throw the conversion's error before
    any request. *)
Theorem item_methods_always_request
    (server : list request -> request -> fetch_result)
    (this : PlayPathSDK) (id item : value) (w : world) :
  issued_since w (snd (getItems server this w)) =
    [{| req_url := baseUrl this +:+ "/api/items"; req_method := None;
        req_headers := headers this; req_body := None |}] /\
  (forall path,
     ToString id = Normal path ->
     issued_since w (snd (getItem server this id w)) =
       [{| req_url := baseUrl this +:+ "/api/items/" +:+ path;
           req_method := None; req_headers := headers this;
           req_body := None |}] /\
     issued_since w (snd (updateItem server this id item w)) =
       [{| req_url := baseUrl this +:+ "/api/items/" +:+ path;
           req_method := Some "PUT"; req_headers := headers this;
           req_body := JSON_stringify item |}] /\
     issued_since w (snd (deleteItem server this id w)) =
       [{| req_url := baseUrl this +:+ "/api/items/" +:+ path;
           req_method := Some "DELETE"; req_headers := headers this;
           req_body := None |}]) /\
  (forall e,
     ToString id = Throw e ->
     getItem server this id w = (Throw e, w) /\
     updateItem server this id item w = (Throw e, w) /\
     deleteItem server this id w = (Throw e, w)) /\
  issued_since w (snd (deleteItem server this VUndefined w)) =
    [{| req_url := baseUrl this +:+ "/api/items/undefined";
        req_method := Some "DELETE"; req_headers := headers this;
        req_body := None |}].
Proof.
  unfold getItems, getItem, updateItem, deleteItem. unfold_M.
  split; [| split; [| split]].
  - apply issued_since_app. rewrite _request_world. reflexivity.
  - intros path ->.
    repeat split; apply issued_since_app; rewrite _request_world; reflexivity.
  - intros e ->. repeat split.
  - simpl. apply issued_since_app. rewrite _request_world. reflexivity.
Qed.

Lemma item_methods_always_request_witness :
  issued_since empty_world
    (snd (getItem backend_hello example_sdk (VNum (2 ^ 70)) empty_world)) =
    [{| req_url := "https://playpath.io/api/items/1.1805916207174113e+21";
        req_method := None; req_headers := headers example_sdk;
        req_body := None |}] /\
  getItem backend_hello example_sdk (VObj [("toString", VNum 1)]) empty_world =
    (Throw (TypeError "Cannot convert object to primitive value"), empty_world).
Proof.
  split.
  - refine (proj1 (proj1 (proj2 (item_methods_always_request backend_hello
                                   example_sdk (VNum (2 ^ 70)) VNull empty_world))
                     "1.1805916207174113e+21" _)).
    vm_compute. reflexivity.
  - exact (proj1 (proj1 (proj2 (proj2 (item_methods_always_request backend_hello
                                         example_sdk (VObj [("toString", VNum 1)])
                                         VNull empty_world)))
                    _ eq_refl)).
Defined.

(** ** Sessions side by side, clearing, and the system prompt *)

Lemma push_turn_other s s' props w :
  wf_session w s' -> history s' <> history s ->
  wf_session (push_turn s props w) s' /\
  history_view (push_turn s props w) s' = history_view w s'.
Proof.
  intros [Hh Ho] Hne.
  assert (Hat : array_at (push_turn s props w) (history s')
                = array_at w (history s')).
  { unfold array_at. simpl. rewrite list_lookup_insert_ne by congruence.
    reflexivity. }
  split.
  - split.
    + simpl. now rewrite length_insert.
    + rewrite Hat. simpl. rewrite length_app. simpl.
      eapply Forall_impl; [exact Ho |]. simpl. intros; lia.
  - unfold history_view, array_value. rewrite Hat.
    apply map_ext_Forall. eapply Forall_impl; [exact Ho |].
    intros o Hlt. simpl in Hlt. unfold object_at. simpl.
    now rewrite lookup_app_l.
Qed.

Lemma sendMessage_other server this s s' msg w :
  wf_session w s' -> history s' <> history s ->
  wf_session (snd (sendMessage server this s msg w)) s' /\
  history_view (snd (sendMessage server this s msg w)) s' = history_view w s'.
Proof.
  intros Hwf Hne. rewrite sendMessage_unfold. cbv zeta.
  destruct (array_spread_spec (history s) w)
    as (w1 & Hsp & Hobj & Harr & _). rewrite Hsp. simpl snd.
  destruct (session_frame s' w w1 _ Hwf Hobj Harr) as (Hwf1 & Hv1 & _).
  destruct (ragChat_frame server this (chat_params s msg (history_view w s)) w1)
    as (Hobj2 & Harr2 & _).
  rewrite <- (app_nil_r (arrays w1)) in Harr2.
  destruct (session_frame s' w1 _ _ Hwf1 Hobj2 Harr2) as (Hwf2 & Hv2 & _).
  destruct (ragChat server this (chat_params s msg (history_view w s)) w1)
    as [[resp | e] w2]; simpl in Hwf2, Hv2; simpl.
  - destruct (push_turn_other s s' [("role", VStr "user"); ("text", msg)] w2
                Hwf2 Hne) as [Hwf3 Hv3].
    destruct (get_prop resp "reply") as [reply | e]; simpl.
    + destruct (push_turn_other s s' [("role", VStr "assistant"); ("text", reply)]
                  _ Hwf3 Hne) as [Hwf4 Hv4].
      split; [exact Hwf4 | congruence].
    + split; [exact Hwf3 | congruence].
  - split; [exact Hwf2 | congruence].
Qed.

(** X7: sessions are independent: a send on one session, whatever its
    outcome, and a clear of it leave the history of every other session as
    it was. *)
Theorem other_session_untouched
    (server : list request -> request -> fetch_result)
    (this : PlayPathSDK) (s other : ChatSession) (msg : value) (w : world) :
  wf_session w other ->
  history other <> history s ->
  history_view (snd (sendMessage server this s msg w)) other
    = history_view w other /\
  history_view (snd (clearHistory s w)) other = history_view w other.
Proof.
  intros Hwf Hne. split.
  - now apply sendMessage_other.
  - unfold history_view. apply array_value_ext; [reflexivity |].
    unfold array_at. simpl. rewrite list_lookup_insert_ne by congruence.
    reflexivity.
Qed.

(** X8: [createChatSession] issues no request and makes a session with an
    empty history in an array of its own: the histories of the sessions
    that exist are as before, and the new session's array is none of
    theirs.  The prompt of the new session is the one given, or [null]
    when none is. *)
Theorem createChatSession_fresh
    (prompt : value) (w : world) (existing : ChatSession) :
  wf_session w existing ->
  exists s w',
    createChatSession prompt w = (Normal s, w') /\
    history_view w' s = [] /\
    wf_session w' s /\
    history s <> history existing /\
    history_view w' existing = history_view w existing /\
    wf_session w' existing /\
    requests w' = requests w /\
    systemPrompt s = match prompt with VUndefined => VNull | _ => prompt end.
Proof.
  intros Hwf.
  destruct (createChatSession_spec prompt w) as (s & w' & Hnew & Hwfs & Hv & Hreq).
  exists s, w'. split; [exact Hnew |].
  unfold createChatSession, new_array in Hnew. unfold_M.
  injection Hnew as Hs Hw. subst s w'.
  destruct (session_frame existing w
              {| objects := objects w; arrays := arrays w ++ [[]];
                 requests := requests w |} [[]] Hwf eq_refl eq_refl)
    as (Hwfe & Hve & _).
  split; [exact Hv |]. split; [exact Hwfs |].
  split; [simpl; destruct Hwf; lia |].
  split; [exact Hve |]. split; [exact Hwfe |].
  split; reflexivity.
Qed.

Lemma other_session_untouched_witness :
  history_view
    (snd (sendMessage backend_hello example_sdk
            {| history := 1%nat; systemPrompt := VNull |} (VStr "second")
            (snd (new_array [] (after_first_send backend_hello)))))
    fresh_session
  = [user_turn (VStr "hi"); assistant_turn (VStr "hello")].
Proof.
  assert (Hwf : wf_session (snd (new_array [] (after_first_send backend_hello)))
                           fresh_session).
  { vm_compute. split; repeat constructor. }
  rewrite (proj1 (other_session_untouched backend_hello example_sdk
                    {| history := 1%nat; systemPrompt := VNull |} fresh_session
                    (VStr "second") _ Hwf ltac:(discriminate))).
  vm_compute. reflexivity.
Defined.

Lemma createChatSession_fresh_witness :
  exists s w',
    createChatSession (VStr "You are a rugby coach")
      (after_first_send backend_hello) = (Normal s, w') /\
    history_view w' s = [] /\
    history s <> history fresh_session /\
    systemPrompt s = VStr "You are a rugby coach".
Proof.
  destruct (createChatSession_fresh (VStr "You are a rugby coach")
              (after_first_send backend_hello) fresh_session after_first_send_wf)
    as (s & w' & Hnew & Hv & _ & Hne & _ & _ & _ & Hp).
  exists s, w'. auto.
Defined.

Lemma sendMessage_issues server this s msg w :
  truthy msg = true ->
  issued_since w (snd (sendMessage server this s msg w)) =
    [request_config this "/api/rag/chat"
       (chat_options (chat_params s msg (history_view w s)))].
Proof.
  intros Hm. apply issued_since_app.
  rewrite sendMessage_requests. now rewrite Hm.
Qed.

Lemma clearHistory_wf s w :
  wf_session w s -> wf_session (snd (clearHistory s w)) s.
Proof.
  intros [Hh _]. split.
  - simpl. now rewrite length_insert.
  - unfold array_at. simpl. rewrite list_lookup_insert_eq by exact Hh.
    constructor.
Qed.

(** X9: [clearHistory()] empties the session's history and nothing else: a
    copy that [getHistory()] returned before still reads as the turns it
    was made from, and the next send carries [history: []]. *)
Theorem clearHistory_resets
    (s : ChatSession) (w0 w : world) (h : addr) :
  wf_session w0 s ->
  getHistory s w0 = (Normal h, w) ->
  history_view (snd (clearHistory s w)) s = [] /\
  array_value (snd (clearHistory s w)) h = history_view w0 s /\
  requests (snd (clearHistory s w)) = requests w0 /\
  forall server this msg,
    truthy msg = true ->
    exists rq body,
      issued_since (snd (clearHistory s w))
        (snd (sendMessage server this s msg (snd (clearHistory s w)))) = [rq] /\
      req_body rq = Some (VObj body) /\
      own_prop "history" body = Some (VArr []).
Proof.
  intros Hwf Hget.
  destruct (array_spread_spec (history s) w0)
    as (w' & Hsp & Hobj & Harr & Hreq & Hat & Hval).
  unfold getHistory in Hget. rewrite Hsp in Hget. injection Hget as <- <-.
  destruct (session_frame s w0 w' _ Hwf Hobj Harr) as (Hwf' & _ & _).
  destruct (clearHistory_empties s w' Hwf') as [Hempty _].
  split; [exact Hempty |]. split; [| split; [exact Hreq |]].
  - fold (history_view w0 s) in Hval. rewrite <- Hval.
    apply array_value_ext; [reflexivity |].
    unfold array_at. simpl.
    rewrite list_lookup_insert_ne by (destruct Hwf; lia). reflexivity.
  - intros server this msg Hm.
    destruct (chat_body_history s msg []) as (body & Hbody & Hh).
    eexists _, body. rewrite (sendMessage_issues _ _ _ _ _ Hm), Hempty.
    split; [reflexivity |]. split; [| exact Hh]. simpl. now rewrite Hbody.
Qed.

Lemma clearHistory_resets_witness :
  exists h w,
    getHistory fresh_session (after_first_send backend_hello) = (Normal h, w) /\
    history_view (snd (clearHistory fresh_session w)) fresh_session = [] /\
    array_value (snd (clearHistory fresh_session w)) h
      = [user_turn (VStr "hi"); assistant_turn (VStr "hello")].
Proof.
  destruct (getHistory fresh_session (after_first_send backend_hello))
    as [o w] eqn:Hget.
  assert (Ho : o = Normal 2%nat).
  { apply (f_equal fst) in Hget. vm_compute in Hget. congruence. }
  subst o. exists 2%nat, w.
  destruct (clearHistory_resets fresh_session (after_first_send backend_hello)
              w 2%nat after_first_send_wf Hget) as (Hempty & Hcopy & _).
  split; [reflexivity | split; [exact Hempty |]].
  rewrite Hcopy. vm_compute. reflexivity.
Defined.

Lemma chat_params_prompt s msg snapshot :
  field (chat_params s msg snapshot) "system_prompt" =
  if truthy (systemPrompt s) then systemPrompt s else VUndefined.
Proof. unfold chat_params. destruct (truthy (systemPrompt s)); reflexivity. Qed.

(** X10: the body of the chat request a send issues holds the message and,
    exactly when the session's current prompt is truthy, that prompt as
    [system_prompt]: after [setSystemPrompt(prompt)] later sends carry the
    new prompt, an empty or [null] prompt removes the field, and the
    history is not touched by the change. *)
Theorem sendMessage_system_prompt
    (server : list request -> request -> fetch_result)
    (this : PlayPathSDK) (s : ChatSession) (prompt msg : value) (w : world) :
  truthy msg = true ->
  history_view w (setSystemPrompt s prompt) = history_view w s /\
  exists rq body,
    issued_since w
      (snd (sendMessage server this (setSystemPrompt s prompt) msg w)) = [rq] /\
    req_body rq = Some (VObj body) /\
    own_prop "message" body = Some (json_of msg) /\
    own_prop "system_prompt" body =
      (if truthy prompt then Some (json_of prompt) else None).
Proof.
  intros Hm. split; [reflexivity |].
  rewrite (sendMessage_issues _ _ _ _ _ Hm).
  eexists _, _. split; [reflexivity |]. simpl req_body. unfold chat_body.
  rewrite chat_params_message, chat_params_history, chat_params_prompt.
  simpl systemPrompt. split; [reflexivity |].
  destruct (truthy prompt) eqn:Hp; simpl; rewrite ?Hp; split; reflexivity.
Qed.

Lemma sendMessage_system_prompt_witness :
  exists rq body,
    issued_since fresh_world
      (snd (sendMessage backend_hello example_sdk
              (setSystemPrompt fresh_session (VStr "Be brief")) (VStr "hi")
              fresh_world)) = [rq] /\
    req_body rq = Some (VObj body) /\
    own_prop "message" body = Some (VStr "hi") /\
    own_prop "system_prompt" body = Some (VStr "Be brief").
Proof.
  exact (proj2 (sendMessage_system_prompt backend_hello example_sdk fresh_session
                  (VStr "Be brief") (VStr "hi") fresh_world eq_refl)).
Defined.

(** X11: the history threads through the sends: after the sends of a
    fresh session have all succeeded, the request of the next send carries
    as [history] the JSON of the turns of all those exchanges, in order. *)
Theorem next_send_carries_exchanges
    (server : list request -> request -> fetch_result)
    (this : PlayPathSDK) (prompt : value) (msgs : list value)
    (w0 w1 w2 : world) (s : ChatSession) (resps : list value) (msg : value) :
  createChatSession prompt w0 = (Normal s, w1) ->
  send_all server this s msgs w1 = (Normal resps, w2) ->
  truthy msg = true ->
  exists rq body,
    issued_since w2 (snd (sendMessage server this s msg w2)) = [rq] /\
    req_body rq = Some (VObj body) /\
    own_prop "history" body =
      Some (json_of (VArr (concat (zip_with exchange msgs resps)))).
Proof.
  intros Hnew Hrun Hm.
  destruct (createChatSession_spec prompt w0) as (s' & w1' & Hnew' & Hwf & Hv & _).
  rewrite Hnew in Hnew'. injection Hnew' as <- <-.
  destruct (send_all_view _ _ _ _ _ _ _ Hwf Hrun) as (_ & _ & Hv2).
  rewrite Hv in Hv2. simpl in Hv2.
  destruct (chat_body_history s msg (history_view w2 s)) as (body & Hbody & Hh).
  eexists _, body. rewrite (sendMessage_issues _ _ _ _ _ Hm).
  split; [reflexivity |]. split; [simpl; now rewrite Hbody |].
  now rewrite <- Hv2.
Qed.

Lemma next_send_carries_exchanges_witness :
  exists rq body,
    issued_since (after_first_send backend_hello)
      (snd (sendMessage backend_hello example_sdk fresh_session (VStr "again")
              (after_first_send backend_hello))) = [rq] /\
    req_body rq = Some (VObj body) /\
    own_prop "history" body =
      Some (VArr [user_turn (VStr "hi"); assistant_turn (VStr "hello")]).
Proof.
  destruct (send_all backend_hello example_sdk fresh_session [VStr "hi"]
              fresh_world) as [o w2] eqn:Hrun.
  assert (Ho : o = Normal [VObj [("reply", VStr "hello")]] /\
               w2 = after_first_send backend_hello).
  { split.
    - apply (f_equal fst) in Hrun. vm_compute in Hrun. congruence.
    - apply (f_equal snd) in Hrun. vm_compute in Hrun. vm_compute. congruence. }
  destruct Ho as [-> ->].
  exact (next_send_carries_exchanges backend_hello example_sdk VUndefined
           [VStr "hi"] empty_world fresh_world _ fresh_session _ (VStr "again")
           fresh_session_made Hrun eq_refl).
Defined.

(** X12: a send of a falsy message (the empty string, [undefined]) fails
    with the 400 validation error of [ragChat] before any request, and the
    history is as it was. *)
Theorem sendMessage_rejects_falsy_message
    (server : list request -> request -> fetch_result)
    (this : PlayPathSDK) (s : ChatSession) (msg : value) (w : world) :
  wf_session w s ->
  truthy msg = false ->
  fst (sendMessage server this s msg w) =
    Throw (ThrowPlayPath {| message := "Message is required";
                            status := Some 400; data := DataValue VNull |}) /\
  requests (snd (sendMessage server this s msg w)) = requests w /\
  history_view (snd (sendMessage server this s msg w)) s = history_view w s.
Proof.
  intros Hwf Hm.
  pose proof (sendMessage_requests server this s msg w) as Hreq.
  rewrite Hm in Hreq.
  destruct (sendMessage server this s msg w) as [[resp | e] w'] eqn:Hsend.
  - exfalso.
    destruct (sendMessage_Normal _ _ _ _ _ _ _ Hwf Hsend) as (Hc & _).
    unfold chat_call in Hc. apply ragChat_Normal_inv in Hc.
    destruct Hc as (Ht & _). rewrite chat_params_message in Ht. congruence.
  - assert (Hcall : fst (chat_call server this s msg w) =
                    Throw (validation_failure "Message is required")).
    { unfold chat_call. rewrite ragChat_invalid; [reflexivity | reflexivity |].
      now rewrite chat_params_message. }
    destruct (sendMessage_Throw _ _ _ _ _ _ _ Hwf Hsend)
      as [(Hc & _ & Hv) | (resp & Hc & _)]; [| congruence].
    rewrite Hcall in Hc. injection Hc as <-.
    split; [reflexivity | split; [exact Hreq | exact Hv]].
Qed.

Lemma sendMessage_rejects_falsy_message_witness :
  fst (sendMessage backend_hello example_sdk fresh_session (VStr "")
         (after_first_send backend_hello)) =
    Throw (ThrowPlayPath {| message := "Message is required";
                            status := Some 400; data := DataValue VNull |}) /\
  requests (snd (sendMessage backend_hello example_sdk fresh_session (VStr "")
                   (after_first_send backend_hello)))
    = requests (after_first_send backend_hello) /\
  history_view (snd (sendMessage backend_hello example_sdk fresh_session
                       (VStr "") (after_first_send backend_hello)))
               fresh_session
    = history_view (after_first_send backend_hello) fresh_session.
Proof.
  exact (sendMessage_rejects_falsy_message backend_hello example_sdk
           fresh_session (VStr "") (after_first_send backend_hello)
           after_first_send_wf eq_refl).
Defined.

(** ** [formatChatHistory] on its own output and on a session's history *)

Lemma formatTurn_shape x t :
  formatTurn x = Normal t ->
  exists role text,
    t = VObj [("role", role); ("text", text)] /\
    truthy role = true /\ (truthy text = true \/ text = VStr "").
Proof.
  destruct x as [| | b | n | str | elems | props]; try discriminate;
    try (intros [= <-]; eexists _, _; split; [reflexivity | split; auto]).
  rewrite formatTurn_record. intros [= <-].
  eexists _, _. split; [reflexivity |]. simpl. split.
  - destruct (truthy (default VUndefined (own_prop "role" props))) eqn:E;
      [exact E | reflexivity].
  - destruct (truthy (default VUndefined (own_prop "text" props))) eqn:Et;
      [left; exact Et |].
    destruct (truthy (default VUndefined (own_prop "message" props))) eqn:Em;
      [left; exact Em |].
    destruct (truthy (default VUndefined (own_prop "content" props))) eqn:Ec;
      [left; exact Ec | right; reflexivity].
Qed.

Lemma formatTurn_fixed role text :
  truthy role = true -> truthy text = true \/ text = VStr "" ->
  formatTurn (VObj [("role", role); ("text", text)])
    = Normal (VObj [("role", role); ("text", text)]).
Proof.
  intros Hr Ht. rewrite formatTurn_record. simpl. rewrite Hr.
  destruct Ht as [Ht | ->]; [now rewrite Ht | reflexivity].
Qed.

Lemma array_map_fixed turns :
  Forall (fun t => formatTurn t = Normal t) turns ->
  array_map formatTurn turns = Normal turns.
Proof.
  induction 1 as [| t turns Ht _ IH]; [reflexivity |].
  simpl. rewrite Ht. unfold_M. now rewrite IH.
Qed.

Lemma array_map_turns elems : forall turns,
  array_map formatTurn elems = Normal turns ->
  length turns = length elems /\
  Forall (fun t => exists role text,
            t = VObj [("role", role); ("text", text)] /\
            truthy role = true /\ (truthy text = true \/ text = VStr ""))
         turns.
Proof.
  induction elems as [| e elems IH]; intros turns Hrun; simpl in Hrun.
  - injection Hrun as <-. split; [reflexivity | constructor].
  - unfold_M. destruct (formatTurn e) as [t |] eqn:Ht; [| discriminate].
    destruct (array_map formatTurn elems) as [ts |]; [| discriminate].
    injection Hrun as <-. destruct (IH ts eq_refl) as [Hlen Hall].
    split; [simpl; now rewrite Hlen |].
    constructor; [now apply (formatTurn_shape e) | exact Hall].
Qed.

(** X13: whenever [formatChatHistory] returns, it returns a list of as
    many turns as it was given elements, each an object with exactly the
    properties [role] and [text], in this order, whose role is truthy and
    whose text is truthy or the empty string: never [undefined] or
    [null]. *)
Theorem formatChatHistory_result_shape (messages result : value) :
  formatChatHistory messages = Normal result ->
  exists elems turns,
    messages = VArr elems /\ result = VArr turns /\
    length turns = length elems /\
    Forall (fun t => exists role text,
              t = VObj [("role", role); ("text", text)] /\
              truthy role = true /\ (truthy text = true \/ text = VStr ""))
           turns.
Proof.
  unfold formatChatHistory, call_map.
  destruct messages as [| | b | n | str | elems | props]; try discriminate.
  destruct (array_map formatTurn elems) as [turns |] eqn:Hrun; [| discriminate].
  intros [= <-]. exists elems, turns.
  destruct (array_map_turns elems turns Hrun) as [Hlen Hall]. auto.
Qed.

Lemma formatChatHistory_result_shape_witness :
  exists elems turns,
    VArr [VObj [("role", VNull); ("content", VNum 0)]; VNum 3] = VArr elems /\
    VArr [user_turn (VStr ""); user_turn (VStr "")] = VArr turns /\
    length turns = length elems /\
    Forall (fun t => exists role text,
              t = VObj [("role", role); ("text", text)] /\
              truthy role = true /\ (truthy text = true \/ text = VStr ""))
           turns.
Proof.
  exact (formatChatHistory_result_shape
           (VArr [VObj [("role", VNull); ("content", VNum 0)]; VNum 3])
           (VArr [user_turn (VStr ""); user_turn (VStr "")]) eq_refl).
Defined.

(** X14: [formatChatHistory] is idempotent: formatting a list it returned
    gives that list again. *)
Theorem formatChatHistory_idempotent (messages result : value) :
  formatChatHistory messages = Normal result ->
  formatChatHistory result = Normal result.
Proof.
  unfold formatChatHistory, call_map.
  destruct messages as [| | b | n | str | elems | props]; try discriminate.
  destruct (array_map formatTurn elems) as [turns |] eqn:Hrun; [| discriminate].
  intros [= <-]. destruct (array_map_turns elems turns Hrun) as [_ Hall].
  rewrite array_map_fixed; [reflexivity |].
  eapply Forall_impl; [exact Hall |].
  intros t (role & text & -> & Hr & Ht). now apply formatTurn_fixed.
Qed.

Lemma formatChatHistory_idempotent_witness :
  formatChatHistory
    (VArr [VObj [("role", VStr "assistant"); ("text", VStr "Hi there")];
           VObj [("role", VStr "user"); ("text", VStr "")]])
  = Normal
    (VArr [VObj [("role", VStr "assistant"); ("text", VStr "Hi there")];
           VObj [("role", VStr "user"); ("text", VStr "")]]).
Proof.
  exact (formatChatHistory_idempotent
           (VArr [VObj [("message", VStr "Hi there"); ("role", VStr "assistant")];
                  VObj []])
           _ eq_refl).
Defined.

Lemma send_all_truthy server this s msgs : forall w resps w',
  wf_session w s ->
  send_all server this s msgs w = (Normal resps, w') ->
  Forall (fun m => truthy m = true) msgs.
Proof.
  induction msgs as [| m msgs IH]; intros w resps w' Hwf Hrun; [constructor |].
  simpl in Hrun. unfold_M.
  destruct (sendMessage server this s m w) as [[r | e] w1] eqn:Hsend;
    [| discriminate].
  destruct (sendMessage_Normal _ _ _ _ _ _ _ Hwf Hsend) as (Hc & Hwf1 & _).
  destruct (send_all server this s msgs w1) as [[rs | e] w2] eqn:Hrest;
    [| discriminate].
  constructor; [| exact (IH _ _ _ Hwf1 Hrest)].
  unfold chat_call in Hc. apply ragChat_Normal_inv in Hc.
  destruct Hc as (Ht & _). now rewrite chat_params_message in Ht.
Qed.

Lemma exchanges_fixed msgs : forall resps,
  Forall (fun m => truthy m = true) msgs ->
  Forall (fun r => exists str, reply_of r = VStr str) resps ->
  Forall (fun t => formatTurn t = Normal t) (concat (zip_with exchange msgs resps)).
Proof.
  induction msgs as [| m msgs IH]; intros [| r resps] Hm Hr;
    try (simpl; constructor).
  - inversion Hm. apply formatTurn_fixed; auto.
  - inversion Hm as [| ? ? _ Hm']. inversion Hr as [| ? ? [str Hstr] Hr'].
    subst. constructor; [| now apply IH].
    rewrite Hstr. apply formatTurn_fixed; [reflexivity |].
    simpl. destruct (String.eqb_spec str ""); [right; congruence | left; reflexivity].
Qed.

(** X15: the history of a session is already formatted: when the sends of
    a fresh session have all succeeded with replies that are strings,
    [formatChatHistory] returns the array [getHistory()] gives turn for
    turn. *)
Theorem formatChatHistory_of_history
    (server : list request -> request -> fetch_result)
    (this : PlayPathSDK) (prompt : value) (msgs : list value)
    (w0 w1 w2 : world) (s : ChatSession) (resps : list value) :
  createChatSession prompt w0 = (Normal s, w1) ->
  send_all server this s msgs w1 = (Normal resps, w2) ->
  Forall (fun r => exists str, reply_of r = VStr str) resps ->
  exists h w3,
    getHistory s w2 = (Normal h, w3) /\
    formatChatHistory (VArr (array_value w3 h)) = Normal (VArr (array_value w3 h)).
Proof.
  intros Hnew Hrun Hstr.
  destruct (createChatSession_spec prompt w0) as (s' & w1' & Hnew' & Hwf & Hv & _).
  rewrite Hnew in Hnew'. injection Hnew' as <- <-.
  destruct (send_all_view _ _ _ _ _ _ _ Hwf Hrun) as (_ & _ & Hv2).
  rewrite Hv in Hv2. simpl in Hv2.
  pose proof (send_all_truthy _ _ _ _ _ _ _ Hwf Hrun) as Hm.
  destruct (array_spread_spec (history s) w2) as (w3 & Hsp & _ & _ & _ & _ & Hval).
  exists (length (arrays w2)), w3. split; [exact Hsp |].
  fold (history_view w2 s) in Hval. rewrite Hval, Hv2.
  unfold formatChatHistory, call_map.
  rewrite array_map_fixed; [reflexivity |]. now apply exchanges_fixed.
Qed.

Lemma formatChatHistory_of_history_witness :
  exists h w3,
    getHistory fresh_session (after_first_send backend_hello) = (Normal h, w3) /\
    formatChatHistory (VArr (array_value w3 h)) = Normal (VArr (array_value w3 h)).
Proof.
  destruct (send_all backend_hello example_sdk fresh_session [VStr "hi"]
              fresh_world) as [o w2] eqn:Hrun.
  assert (Ho : o = Normal [VObj [("reply", VStr "hello")]] /\
               w2 = after_first_send backend_hello).
  { split.
    - apply (f_equal fst) in Hrun. vm_compute in Hrun. congruence.
    - apply (f_equal snd) in Hrun. vm_compute in Hrun. vm_compute. congruence. }
  destruct Ho as [-> ->].
  refine (formatChatHistory_of_history backend_hello example_sdk VUndefined
            [VStr "hi"] empty_world fresh_world _ fresh_session _
            fresh_session_made Hrun _).
  repeat constructor. exists "hello". reflexivity.
Defined.

(** ** The Express example server *)

Lemma same_key_eq a b : same_key a b = true -> a = b.
Proof.
  destruct a, b; simpl; try discriminate; try reflexivity; intros H.
  - now apply Bool.eqb_prop in H; subst.
  - now apply Z.eqb_eq in H; subst.
  - now apply String.eqb_eq in H; subst.
Qed.

Lemma map_get_set_eq k v m :
  same_key k k = true -> map_get k (map_set k v m) = Some v.
Proof.
  intros Hk. induction m as [| [k' v'] m IH]; simpl.
  - now rewrite Hk.
  - destruct (same_key k k') eqn:E; simpl; now rewrite E.
Qed.

Lemma map_get_set_ne k k' v m :
  same_key k' k = false -> map_get k' (map_set k v m) = map_get k' m.
Proof.
  intros Hne. induction m as [| [k0 v0] m IH]; simpl.
  - now rewrite Hne.
  - destruct (same_key k k0) eqn:E; simpl.
    + apply same_key_eq in E. subst k0. now rewrite Hne.
    + now rewrite IH.
Qed.

Lemma map_get_delete_eq k m : map_get k (map_delete k m) = None.
Proof.
  unfold map_delete. induction m as [| [k' v'] m IH]; [reflexivity |].
  rewrite filter_cons. simpl. destruct (same_key k k') eqn:E.
  - rewrite decide_False by discriminate. exact IH.
  - rewrite decide_True by reflexivity. simpl. now rewrite E.
Qed.

Lemma map_get_delete_ne k k' m :
  same_key k' k = false -> map_get k' (map_delete k m) = map_get k' m.
Proof.
  intros Hne. unfold map_delete.
  induction m as [| [k0 v0] m IH]; [reflexivity |].
  rewrite filter_cons. simpl. destruct (same_key k k0) eqn:E.
  - rewrite decide_False by discriminate.
    apply same_key_eq in E. subst k0. now rewrite Hne.
  - rewrite decide_True by reflexivity. simpl. now rewrite IH.
Qed.

Lemma destructure_field v k :
  nullish v = false -> destructure v k = Normal (field v k).
Proof. destruct v; simpl; intros H; try discriminate H; reflexivity. Qed.

Lemma sendMessage_Normal_has_properties server this s msg w resp w' :
  sendMessage server this s msg w = (Normal resp, w') -> nullish resp = false.
Proof.
  rewrite sendMessage_unfold. cbv zeta.
  destruct (ragChat server this (chat_params s msg (history_view w s))
              (snd (array_spread (history s) w))) as [[r | e] w2]; [| discriminate].
  destruct (get_prop r "reply") as [reply | e] eqn:Hr; [| discriminate].
  intros [= <- _]. destruct r; try discriminate Hr; reflexivity.
Qed.

(** X16: the message route answers 400 when the body lacks a truthy
    [sessionId] or [message], and 404 when no session is registered under
    the id; in both cases it sends nothing upstream and changes neither
    the registry nor any history. *)
Theorem post_chat_message_guards
    (server : list request -> request -> fetch_result)
    (sdk : PlayPathSDK) (body : value)
    (chatSessions : list (value * ChatSession)) (w : world) :
  nullish body = false ->
  (truthy (field body "sessionId") = false \/
   truthy (field body "message") = false ->
   post_chat_message server sdk body chatSessions w =
     (Normal (res_json 400
                (VObj [("error", VStr "sessionId and message are required")]),
              chatSessions), w)) /\
  (truthy (field body "sessionId") = true ->
   truthy (field body "message") = true ->
   map_get (field body "sessionId") chatSessions = None ->
   post_chat_message server sdk body chatSessions w =
     (Normal (res_json 404 (VObj [("error", VStr "Chat session not found")]),
              chatSessions), w)).
Proof.
  intros Hn. unfold post_chat_message. unfold_M.
  rewrite (destructure_field _ _ Hn), (get_prop_field _ _ Hn).
  split.
  - intros [H | H]; rewrite H; simpl; [reflexivity |].
    now rewrite orb_true_r.
  - intros Hs Hm Hget. rewrite Hs, Hm, Hget. reflexivity.
Qed.

Lemma post_chat_message_guards_witness :
  post_chat_message backend_hello example_sdk
    (VObj [("sessionId", VStr "s1"); ("message", VStr "")])
    [(VStr "s1", fresh_session)] fresh_world =
    (Normal (res_json 400
               (VObj [("error", VStr "sessionId and message are required")]),
             [(VStr "s1", fresh_session)]), fresh_world) /\
  post_chat_message backend_hello example_sdk
    (VObj [("sessionId", VStr "s2"); ("message", VStr "hi")])
    [(VStr "s1", fresh_session)] fresh_world =
    (Normal (res_json 404 (VObj [("error", VStr "Chat session not found")]),
             [(VStr "s1", fresh_session)]), fresh_world).
Proof.
  split.
  - apply (post_chat_message_guards backend_hello example_sdk
             (VObj [("sessionId", VStr "s1"); ("message", VStr "")])
             [(VStr "s1", fresh_session)] fresh_world eq_refl).
    right. reflexivity.
  - exact (proj2 (post_chat_message_guards backend_hello example_sdk
                    (VObj [("sessionId", VStr "s2"); ("message", VStr "hi")])
                    [(VStr "s1", fresh_session)] fresh_world eq_refl)
             eq_refl eq_refl eq_refl).
Defined.

(** X17: for a registered session the message route never lets an error
    escape: it answers with what [sendMessage] did and changes nothing
    else.  When the send returns a response, the answer is 200 with the
    reply, usage and limit of that response and the session id; when the
    send fails, the answer is 500 with the error's message, whatever
    status the error carries.  Under a backend whose successful responses
    are never [null], the session's history has grown by the exchange in
    the first case and is as it was in the second. *)
Theorem post_chat_message_known
    (server : list request -> request -> fetch_result)
    (sdk : PlayPathSDK) (body : value)
    (chatSessions : list (value * ChatSession)) (w : world)
    (chatSession : ChatSession) :
  nullish body = false ->
  truthy (field body "sessionId") = true ->
  truthy (field body "message") = true ->
  map_get (field body "sessionId") chatSessions = Some chatSession ->
  exists reply,
    post_chat_message server sdk body chatSessions w
      = (Normal (reply, chatSessions),
         snd (sendMessage server sdk chatSession (field body "message") w)) /\
    reply =
      match fst (sendMessage server sdk chatSession (field body "message") w) with
      | Normal response =>
          res_json 200
            (VObj [("reply", field response "reply");
                   ("usage", field response "usage");
                   ("limit", field response "limit");
                   ("sessionId", field body "sessionId")])
      | Throw error => res_json 500 (VObj [("error", error_message error)])
      end /\
    (wf_session w chatSession -> success_has_properties server ->
     history_view
       (snd (sendMessage server sdk chatSession (field body "message") w))
       chatSession
     = history_view w chatSession
       ++ turns_of (field body "message")
            (fst (sendMessage server sdk chatSession (field body "message") w))).
Proof.
  intros Hn Hs Hm Hget. unfold post_chat_message. unfold_M.
  rewrite (destructure_field _ _ Hn), (get_prop_field _ _ Hn), Hs, Hm, Hget.
  change (negb true || negb true) with false. cbv beta iota.
  assert (Hhist : wf_session w chatSession -> success_has_properties server ->
    history_view
      (snd (sendMessage server sdk chatSession (field body "message") w))
      chatSession
    = history_view w chatSession
      ++ turns_of (field body "message")
           (fst (sendMessage server sdk chatSession (field body "message") w))).
  { intros Hwf Hsrv. now apply sendMessage_step. }
  destruct (sendMessage server sdk chatSession (field body "message") w)
    as [[response | error] w'] eqn:Hsend.
  - pose proof (sendMessage_Normal_has_properties _ _ _ _ _ _ _ Hsend) as Hp.
    cbv beta iota. rewrite (get_prop_field _ "reply" Hp). cbv beta iota.
    rewrite (get_prop_field _ "usage" Hp). cbv beta iota.
    rewrite (get_prop_field _ "limit" Hp). cbv beta iota.
    eexists. split; [reflexivity |]. split; [reflexivity | exact Hhist].
  - eexists. split; [reflexivity |]. split; [reflexivity | exact Hhist].
Qed.

Lemma post_chat_message_known_witness :
  exists reply,
    post_chat_message backend_hello example_sdk
      (VObj [("sessionId", VStr "s1"); ("message", VStr "hi")])
      [(VStr "s1", fresh_session)] fresh_world
      = (Normal (reply, [(VStr "s1", fresh_session)]),
         after_first_send backend_hello) /\
    reply = res_json 200
              (VObj [("reply", VStr "hello"); ("usage", VUndefined);
                     ("limit", VUndefined); ("sessionId", VStr "s1")]).
Proof.
  destruct (post_chat_message_known backend_hello example_sdk
              (VObj [("sessionId", VStr "s1"); ("message", VStr "hi")])
              [(VStr "s1", fresh_session)] fresh_world fresh_session
              eq_refl eq_refl eq_refl eq_refl)
    as (reply & Hrun & Hreply & _).
  exists reply. split; [exact Hrun |]. rewrite Hreply. vm_compute. reflexivity.
Defined.

Lemma get_chat_history_found id chatSessions chatSession w :
  map_get (VStr id) chatSessions = Some chatSession ->
  fst (get_chat_history id chatSessions w) =
    Normal (res_json 200
              (VObj [("history", VArr (history_view w chatSession));
                     ("sessionId", VStr id)]),
            chatSessions).
Proof.
  intros Hget. unfold get_chat_history, getHistory, read_array. unfold_M.
  rewrite Hget.
  destruct (array_spread_spec (history chatSession) w)
    as (w' & Hsp & _ & _ & _ & _ & Hval).
  rewrite Hsp. simpl. fold (history_view w chatSession) in Hval.
  now rewrite Hval.
Qed.

(** X18: starting a session under a non-empty string id answers 200,
    sends nothing upstream and registers a session with an empty history
    under that id, in place of any session the id had: the history route
    then answers 200 with [history: []].  Sessions under other ids stay
    registered as they were. *)
Theorem post_chat_start_registers (body : value) (id : string)
    (chatSessions : list (value * ChatSession)) (w : world) :
  field body "sessionId" = VStr id ->
  id <> "" ->
  exists chatSessions' w',
    post_chat_start body chatSessions w =
      (Normal (res_json 200
                 (VObj [("message", VStr "Chat session started successfully");
                        ("sessionId", VStr id)]),
               chatSessions'), w') /\
    requests w' = requests w /\
    fst (get_chat_history id chatSessions' w') =
      Normal (res_json 200 (VObj [("history", VArr []); ("sessionId", VStr id)]),
              chatSessions') /\
    forall other, other <> id ->
      map_get (VStr other) chatSessions' = map_get (VStr other) chatSessions.
Proof.
  intros Hid Hne.
  assert (Hn : nullish body = false).
  { destruct body; try reflexivity; discriminate Hid. }
  unfold post_chat_start. unfold_M.
  rewrite (destructure_field _ _ Hn), (get_prop_field _ _ Hn), Hid.
  assert (Ht : truthy (VStr id) = true).
  { simpl. now destruct (String.eqb_spec id ""). }
  rewrite Ht. change (negb true) with false. cbv beta iota.
  destruct (createChatSession_spec (js_or (field body "systemPrompt") VNull) w)
    as (s & w' & Hnew & _ & Hv & Hreq).
  rewrite Hnew. cbv beta iota.
  eexists _, w'. split; [reflexivity |]. split; [exact Hreq |]. split.
  - rewrite (get_chat_history_found id _ s).
    + now rewrite Hv.
    + apply map_get_set_eq. simpl. apply String.eqb_refl.
  - intros other Ho. apply map_get_set_ne. simpl.
    now apply String.eqb_neq.
Qed.

Lemma post_chat_start_registers_witness :
  exists chatSessions' w',
    post_chat_start (VObj [("sessionId", VStr "s1")])
      [(VStr "s1", fresh_session)] (after_first_send backend_hello) =
      (Normal (res_json 200
                 (VObj [("message", VStr "Chat session started successfully");
                        ("sessionId", VStr "s1")]),
               chatSessions'), w') /\
    fst (get_chat_history "s1" chatSessions' w') =
      Normal (res_json 200 (VObj [("history", VArr []); ("sessionId", VStr "s1")]),
              chatSessions').
Proof.
  destruct (post_chat_start_registers
              (VObj [("sessionId", VStr "s1")]) "s1"
              [(VStr "s1", fresh_session)] (after_first_send backend_hello)
              eq_refl ltac:(discriminate))
    as (reg & w' & Hrun & _ & Hhist & _).
  exists reg, w'. split; [exact Hrun | exact Hhist].
Defined.

(** X19: ending a session answers 200 when the id is registered and 404
    when it is not; afterwards the id is not registered, so the history
    route answers 404 for it, and the sessions under other ids are
    registered as before.  Nothing is sent upstream. *)
Theorem delete_chat_ends (id : string)
    (chatSessions : list (value * ChatSession)) (w : world) :
  exists reply chatSessions',
    delete_chat id chatSessions w = (Normal (reply, chatSessions'), w) /\
    reply_status reply =
      (if map_has (VStr id) chatSessions then 200 else 404) /\
    map_get (VStr id) chatSessions' = None /\
    (forall other, other <> id ->
       map_get (VStr other) chatSessions' = map_get (VStr other) chatSessions) /\
    get_chat_history id chatSessions' w =
      (Normal (res_json 404 (VObj [("error", VStr "Chat session not found")]),
               chatSessions'), w).
Proof.
  unfold delete_chat, map_has.
  destruct (map_get (VStr id) chatSessions) as [s |] eqn:Hget.
  - eexists _, _. split; [reflexivity |]. split; [reflexivity |].
    split; [apply map_get_delete_eq |]. split.
    + intros other Ho. apply map_get_delete_ne. simpl. now apply String.eqb_neq.
    + unfold get_chat_history. now rewrite map_get_delete_eq.
  - eexists _, _. split; [reflexivity |]. split; [reflexivity |].
    split; [exact Hget |]. split; [reflexivity |].
    unfold get_chat_history. now rewrite Hget.
Qed.

(** X20: the chat proxy route never lets an error escape.  It answers 200
    with the upstream body; 400 with "Message is required", before any
    upstream request, for a body without a truthy message; and 500 when
    upstream cannot be reached.  When upstream answers a non-success
    status with a body other than [null], the route answers that status
    (500 for status 0) with the error's message and the upstream body as
    details if the message converts to a string, and 500 with empty
    details if it does not. *)
Theorem post_rag_chat_status
    (server : list request -> request -> fetch_result)
    (sdk : PlayPathSDK) (body : value) (w : world) :
  (exists reply w', post_rag_chat server sdk body w = (Normal reply, w')) /\
  (nullish body = false -> truthy (field body "message") = false ->
   post_rag_chat server sdk body w =
     (Normal (res_json 400 (VObj [("error", VStr "Message is required");
                                  ("details", VNull)])), w)) /\
  (nullish body = false -> truthy (field body "message") = true ->
   forall rq, rq = request_config sdk "/api/rag/chat" (chat_options body) ->
   (forall r d,
      server (requests w) rq = FetchResolves r ->
      resp_json r = inr d -> resp_ok r = true ->
      fst (post_rag_chat server sdk body w) = Normal (res_json 200 d)) /\
   (forall r d,
      server (requests w) rq = FetchResolves r ->
      resp_json r = inr d -> resp_ok r = false -> nullish d = false ->
      fst (post_rag_chat server sdk body w) =
        match http_error_message d (resp_status r) with
        | Normal msg =>
            Normal (res_json (if resp_status r =? 0 then 500 else resp_status r)
                      (VObj [("error", VStr msg); ("details", d)]))
        | Throw _ =>
            Normal (res_json 500
                      (VObj [("error",
                              VStr "Cannot convert object to primitive value");
                             ("details", VObj [])]))
        end) /\
   (forall e,
      server (requests w) rq = FetchRejects e ->
      fst (post_rag_chat server sdk body w) =
        Normal (res_json 500 (VObj [("error", VStr (err_message e));
                                    ("details", VObj [])])))).
Proof.
  split; [| split].
  - unfold post_rag_chat. unfold_M.
    destruct (ragChat server sdk body w) as [[resp | e] w']; eauto.
  - intros Hn Hm. unfold post_rag_chat. unfold_M.
    now rewrite (ragChat_invalid _ _ _ _ Hn Hm).
  - intros Hn Hm rq ->. unfold post_rag_chat. unfold_M.
    rewrite (ragChat_valid _ _ _ _ Hn Hm).
    split; [| split].
    + intros r d Hr Hj Hok.
      pose proof (_request_success _ _ _ _ _ r d Hr Hj Hok) as Hres.
      destruct (_request server sdk "/api/rag/chat" (chat_options body) w)
        as [o w']. simpl in Hres. now subst o.
    + intros r d Hr Hj Hok Hd.
      pose proof (_request_http_message _ _ _ _ _ r d Hr Hj Hok Hd) as Hres.
      destruct (_request server sdk "/api/rag/chat" (chat_options body) w)
        as [o w']. simpl in Hres. subst o.
      destruct (http_error_message d (resp_status r)) as [msg | e];
        [| reflexivity].
      cbv beta iota. unfold res_json, status_or_500, js_or. simpl.
      now destruct (resp_status r =? 0).
    + intros e Hr.
      pose proof (_request_rejects _ _ _ _ _ e Hr) as Hres.
      destruct (_request server sdk "/api/rag/chat" (chat_options body) w)
        as [o w']. simpl in Hres. now subst o.
Qed.

Lemma post_rag_chat_status_witness :
  post_rag_chat backend_hello example_sdk (VObj []) empty_world =
    (Normal (res_json 400 (VObj [("error", VStr "Message is required");
                                 ("details", VNull)])), empty_world) /\
  fst (post_rag_chat backend_not_found example_sdk
         (VObj [("message", VStr "hi")]) empty_world) =
    Normal (res_json 404 (VObj [("error", VStr "not found");
                                ("details", VObj [("error", VStr "not found")])])) /\
  fst (post_rag_chat
         (backend_answers 404 (VObj [("error", VObj [("toString", VNum 1)])]))
         example_sdk (VObj [("message", VStr "hi")]) empty_world) =
    Normal (res_json 500
              (VObj [("error", VStr "Cannot convert object to primitive value");
                     ("details", VObj [])])) /\
  fst (post_rag_chat backend_down example_sdk (VObj [("message", VStr "hi")])
         empty_world) =
    Normal (res_json 500 (VObj [("error", VStr "fetch failed");
                                ("details", VObj [])])).
Proof.
  split; [| split; [| split]].
  - exact (proj1 (proj2 (post_rag_chat_status backend_hello example_sdk
                           (VObj []) empty_world)) eq_refl eq_refl).
  - exact (proj1 (proj2 (proj2 (proj2 (post_rag_chat_status backend_not_found
                 example_sdk (VObj [("message", VStr "hi")]) empty_world))
                 eq_refl eq_refl _ eq_refl))
             _ _ eq_refl eq_refl eq_refl eq_refl).
  - exact (proj1 (proj2 (proj2 (proj2 (post_rag_chat_status
                 (backend_answers 404 (VObj [("error", VObj [("toString", VNum 1)])]))
                 example_sdk (VObj [("message", VStr "hi")]) empty_world))
                 eq_refl eq_refl _ eq_refl))
             _ _ eq_refl eq_refl eq_refl eq_refl).
  - exact (proj2 (proj2 (proj2 (proj2 (post_rag_chat_status backend_down
             example_sdk (VObj [("message", VStr "hi")]) empty_world))
             eq_refl eq_refl _ eq_refl)) _ eq_refl).
Defined.

Lemma createItem_invalid server this item w :
  nullish item = false ->
  truthy (field item "title") = false ->
  truthy (field item "text") = false ->
  createItem server this item w =
    (Throw (validation_failure "Either title or text is required"), w).
Proof.
  intros Hn Ht Hx. unfold createItem. unfold_M.
  rewrite !(get_prop_field _ _ Hn). cbv beta iota.
  rewrite Ht. simpl negb. cbv beta iota. rewrite Hx. reflexivity.
Qed.

Lemma createItem_valid server this item w :
  nullish item = false ->
  truthy (field item "title") = true \/ truthy (field item "text") = true ->
  createItem server this item w =
    _request server this "/api/items"
      {| opt_method := Some "POST"; opt_headers := None;
         opt_body := JSON_stringify item |} w.
Proof.
  intros Hn Hok. unfold createItem. unfold_M.
  rewrite !(get_prop_field _ _ Hn). cbv beta iota.
  destruct (truthy (field item "title")) eqn:Ht; simpl negb;
    cbv beta iota; [reflexivity |].
  destruct Hok as [Hok | Hok]; [discriminate | rewrite Hok; reflexivity].
Qed.

(** X21: the item creation route never lets an error escape.  It answers
    400 with "Either title or text is required", before any upstream
    request, for a body without a truthy title or text, and 201 with the
    upstream body when upstream accepts the item.  When upstream answers a
    non-success status with a body other than [null], the route answers
    that status (500 for status 0) with the error's message if the message
    converts to a string, and 500 if it does not. *)
Theorem post_items_status
    (server : list request -> request -> fetch_result)
    (sdk : PlayPathSDK) (body : value) (w : world) :
  (exists reply w', post_items server sdk body w = (Normal reply, w')) /\
  (nullish body = false ->
   truthy (field body "title") = false -> truthy (field body "text") = false ->
   post_items server sdk body w =
     (Normal (res_json 400
                (VObj [("error", VStr "Either title or text is required")])),
      w)) /\
  (nullish body = false ->
   truthy (field body "title") = true \/ truthy (field body "text") = true ->
   forall rq,
     rq = request_config sdk "/api/items"
            {| opt_method := Some "POST"; opt_headers := None;
               opt_body := JSON_stringify body |} ->
   (forall r d,
      server (requests w) rq = FetchResolves r ->
      resp_json r = inr d -> resp_ok r = true ->
      fst (post_items server sdk body w) = Normal (res_json 201 d)) /\
   (forall r d,
      server (requests w) rq = FetchResolves r ->
      resp_json r = inr d -> resp_ok r = false -> nullish d = false ->
      fst (post_items server sdk body w) =
        match http_error_message d (resp_status r) with
        | Normal msg =>
            Normal (res_json (if resp_status r =? 0 then 500 else resp_status r)
                      (VObj [("error", VStr msg)]))
        | Throw _ =>
            Normal (res_json 500
                      (VObj [("error",
                              VStr "Cannot convert object to primitive value")]))
        end)).
Proof.
  split; [| split].
  - unfold post_items. unfold_M.
    destruct (createItem server sdk body w) as [[resp | e] w']; eauto.
  - intros Hn Ht Hx. unfold post_items. unfold_M.
    now rewrite (createItem_invalid _ _ _ _ Hn Ht Hx).
  - intros Hn Hok rq ->. unfold post_items. unfold_M.
    rewrite (createItem_valid _ _ _ _ Hn Hok).
    split.
    + intros r d Hr Hj Hrok.
      pose proof (_request_success _ _ _ _ _ r d Hr Hj Hrok) as Hres.
      destruct (_request server sdk "/api/items"
                  {| opt_method := Some "POST"; opt_headers := None;
                     opt_body := JSON_stringify body |} w) as [o w'].
      simpl in Hres. now subst o.
    + intros r d Hr Hj Hrok Hd.
      pose proof (_request_http_message _ _ _ _ _ r d Hr Hj Hrok Hd) as Hres.
      destruct (_request server sdk "/api/items"
                  {| opt_method := Some "POST"; opt_headers := None;
                     opt_body := JSON_stringify body |} w) as [o w'].
      simpl in Hres. subst o.
      destruct (http_error_message d (resp_status r)) as [msg | e];
        [| reflexivity].
      cbv beta iota. unfold res_json, status_or_500, js_or. simpl.
      now destruct (resp_status r =? 0).
Qed.

Lemma post_items_status_witness :
  post_items backend_hello example_sdk (VObj [("url", VStr "https://x")])
    empty_world =
    (Normal (res_json 400
               (VObj [("error", VStr "Either title or text is required")])),
     empty_world) /\
  fst (post_items backend_hello example_sdk (VObj [("title", VStr "Scrum")])
         empty_world) =
    Normal (res_json 201 (VObj [("reply", VStr "hello")])) /\
  fst (post_items backend_not_found example_sdk (VObj [("title", VStr "Scrum")])
         empty_world) =
    Normal (res_json 404 (VObj [("error", VStr "not found")])).
Proof.
  split; [| split].
  - exact (proj1 (proj2 (post_items_status backend_hello example_sdk
                           (VObj [("url", VStr "https://x")]) empty_world))
             eq_refl eq_refl eq_refl).
  - exact (proj1 (proj2 (proj2 (post_items_status backend_hello example_sdk
                                  (VObj [("title", VStr "Scrum")]) empty_world))
                    eq_refl (or_introl eq_refl) _ eq_refl)
             _ _ eq_refl eq_refl eq_refl).
  - exact (proj2 (proj2 (proj2 (post_items_status backend_not_found example_sdk
                                  (VObj [("title", VStr "Scrum")]) empty_world))
                    eq_refl (or_introl eq_refl) _ eq_refl)
             _ _ eq_refl eq_refl eq_refl eq_refl).
Defined.

(** X22: the route that clears a history answers 404 for an id that is
    not registered and changes nothing; for a registered session it
    answers 200, sends nothing upstream, and leaves the session
    registered with an empty history, which the history route then
    returns. *)
Theorem delete_chat_history_clears
    (id : string) (chatSessions : list (value * ChatSession)) (w : world) :
  (map_get (VStr id) chatSessions = None ->
   delete_chat_history id chatSessions w =
     (Normal (res_json 404 (VObj [("error", VStr "Chat session not found")]),
              chatSessions), w)) /\
  (forall chatSession,
     map_get (VStr id) chatSessions = Some chatSession ->
     wf_session w chatSession ->
     exists w',
       delete_chat_history id chatSessions w =
         (Normal (res_json 200 (VObj [("message", VStr "Chat history cleared")]),
                  chatSessions), w') /\
       requests w' = requests w /\
       history_view w' chatSession = [] /\
       fst (get_chat_history id chatSessions w') =
         Normal (res_json 200
                   (VObj [("history", VArr []); ("sessionId", VStr id)]),
                 chatSessions)).
Proof.
  split.
  - intros Hget. unfold delete_chat_history. now rewrite Hget.
  - intros s Hget Hwf. unfold delete_chat_history. unfold_M. rewrite Hget.
    destruct (clearHistory_empties s w Hwf) as [Hempty _].
    eexists. split; [reflexivity |]. split; [reflexivity |].
    split; [exact Hempty |].
    rewrite (get_chat_history_found id _ s _ Hget).
    unfold clearHistory in Hempty. simpl in Hempty |- *. now rewrite Hempty.
Qed.

Lemma delete_chat_history_clears_witness :
  exists w',
    delete_chat_history "s1" [(VStr "s1", fresh_session)]
      (after_first_send backend_hello) =
      (Normal (res_json 200 (VObj [("message", VStr "Chat history cleared")]),
               [(VStr "s1", fresh_session)]), w') /\
    history_view w' fresh_session = [].
Proof.
  destruct (proj2 (delete_chat_history_clears "s1" [(VStr "s1", fresh_session)]
                     (after_first_send backend_hello))
              fresh_session eq_refl after_first_send_wf)
    as (w' & Hrun & _ & Hempty & _).
  exists w'. split; [exact Hrun | exact Hempty].
Defined.

(** X23: a session started under an id that is a number or a boolean is
    registered under that id, with an empty history, and the message
    route, which takes the id from the body, finds it there; but the
    routes that take the id from the URL, where it is a string, do not:
    for them the registry reads as before. *)
Theorem post_chat_start_non_string_id
    (body : value) (chatSessions : list (value * ChatSession)) (w : world) :
  nullish body = false ->
  truthy (field body "sessionId") = true ->
  (forall str, field body "sessionId" <> VStr str) ->
  same_key (field body "sessionId") (field body "sessionId") = true ->
  exists chatSession chatSessions' w',
    post_chat_start body chatSessions w =
      (Normal (res_json 200
                 (VObj [("message", VStr "Chat session started successfully");
                        ("sessionId", field body "sessionId")]),
               chatSessions'), w') /\
    map_get (field body "sessionId") chatSessions' = Some chatSession /\
    history_view w' chatSession = [] /\
    forall id,
      map_get (VStr id) chatSessions' = map_get (VStr id) chatSessions /\
      fst (get_chat_history id chatSessions' w') =
        match map_get (VStr id) chatSessions with
        | None => Normal (res_json 404
                            (VObj [("error", VStr "Chat session not found")]),
                          chatSessions')
        | Some found =>
            Normal (res_json 200
                      (VObj [("history", VArr (history_view w' found));
                             ("sessionId", VStr id)]),
                    chatSessions')
        end.
Proof.
  intros Hn Ht Hstr Hkey. unfold post_chat_start. unfold_M.
  rewrite (destructure_field _ _ Hn), (get_prop_field _ _ Hn), Ht.
  change (negb true) with false. cbv beta iota.
  destruct (createChatSession_spec (js_or (field body "systemPrompt") VNull) w)
    as (s & w' & Hnew & _ & Hv & _).
  rewrite Hnew. cbv beta iota.
  exists s. eexists _, w'. split; [reflexivity |].
  split; [now apply map_get_set_eq |]. split; [exact Hv |]. intros id.
  assert (Hget : map_get (VStr id)
                   (map_set (field body "sessionId") s chatSessions)
                 = map_get (VStr id) chatSessions).
  { apply map_get_set_ne.
    destruct (field body "sessionId") eqn:E; try reflexivity.
    exfalso. now apply (Hstr s0). }
  split; [exact Hget |].
  destruct (map_get (VStr id) chatSessions) as [cs |] eqn:Hold.
  - now apply get_chat_history_found.
  - unfold get_chat_history. now rewrite Hget.
Qed.

Lemma post_chat_start_non_string_id_witness :
  exists chatSession chatSessions' w',
    post_chat_start (VObj [("sessionId", VNum 5)]) [] empty_world =
      (Normal (res_json 200
                 (VObj [("message", VStr "Chat session started successfully");
                        ("sessionId", VNum 5)]),
               chatSessions'), w') /\
    map_get (VNum 5) chatSessions' = Some chatSession /\
    fst (get_chat_history "5" chatSessions' w') =
      Normal (res_json 404 (VObj [("error", VStr "Chat session not found")]),
              chatSessions').
Proof.
  destruct (post_chat_start_non_string_id (VObj [("sessionId", VNum 5)]) []
              empty_world eq_refl eq_refl ltac:(discriminate) eq_refl)
    as (cs & reg & w' & Hrun & Hreg & _ & Hid).
  exists cs, reg, w'. split; [exact Hrun | split; [exact Hreg |]].
  exact (proj2 (Hid "5")).
Defined.

(** X24: the routes that list, fetch, update and delete items never let
    an error escape and always send exactly one request upstream.  They
    answer 200 with the upstream body on success and 500 with the
    failure's message when upstream cannot be reached.  When upstream
    answers a non-success status with a body other than [null], they
    answer that status (500 for status 0) with the error's message if the
    message converts to a string, and 500 if it does not. *)
Theorem item_routes_status
    (server : list request -> request -> fetch_result)
    (sdk : PlayPathSDK) (route : item_route) (w : world) :
  exists reply rq,
    handle_item_route server sdk route w = (Normal reply, log_request rq w) /\
    (forall r d,
       server (requests w) rq = FetchResolves r ->
       resp_json r = inr d -> resp_ok r = true ->
       reply = res_json 200 d) /\
    (forall r d,
       server (requests w) rq = FetchResolves r ->
       resp_json r = inr d -> resp_ok r = false -> nullish d = false ->
       reply =
         match http_error_message d (resp_status r) with
         | Normal msg =>
             res_json (if resp_status r =? 0 then 500 else resp_status r)
               (VObj [("error", VStr msg)])
         | Throw _ =>
             res_json 500
               (VObj [("error", VStr "Cannot convert object to primitive value")])
         end) /\
    (forall e,
       server (requests w) rq = FetchRejects e ->
       reply = res_json 500 (VObj [("error", VStr (err_message e))])).
Proof.
  assert (Hall : forall endpoint options,
    exists reply,
      try_catch
        (x ← _request server sdk endpoint options; mret (res_json 200 x))
        (fun error =>
           mret (res_json (status_or_500 error)
                   (VObj [("error", error_message error)]))) w
      = (Normal reply, log_request (request_config sdk endpoint options) w) /\
      (forall r d,
         server (requests w) (request_config sdk endpoint options)
           = FetchResolves r ->
         resp_json r = inr d -> resp_ok r = true ->
         reply = res_json 200 d) /\
      (forall r d,
         server (requests w) (request_config sdk endpoint options)
           = FetchResolves r ->
         resp_json r = inr d -> resp_ok r = false -> nullish d = false ->
         reply =
           match http_error_message d (resp_status r) with
           | Normal msg =>
               res_json (if resp_status r =? 0 then 500 else resp_status r)
                 (VObj [("error", VStr msg)])
           | Throw _ =>
               res_json 500
                 (VObj [("error",
                         VStr "Cannot convert object to primitive value")])
           end) /\
      (forall e,
         server (requests w) (request_config sdk endpoint options)
           = FetchRejects e ->
         reply = res_json 500 (VObj [("error", VStr (err_message e))]))).
  { intros endpoint options. unfold_M.
    pose proof (_request_world server sdk endpoint options w) as Hw.
    pose proof (_request_success server sdk endpoint options w) as Hok.
    pose proof (_request_http_message server sdk endpoint options w) as Hhttp.
    pose proof (_request_rejects server sdk endpoint options w) as Hrej.
    destruct (_request server sdk endpoint options w) as [o w'].
    simpl in Hw, Hok, Hhttp, Hrej. subst w'.
    destruct o as [x | error]; eexists; (split; [reflexivity |]);
      (split; [| split]).
    - intros r d Hr Hj Hrok. specialize (Hok r d Hr Hj Hrok). congruence.
    - intros r d Hr Hj Hrok Hd. specialize (Hhttp r d Hr Hj Hrok Hd).
      destruct (http_error_message d (resp_status r)); discriminate.
    - intros e Hr. specialize (Hrej e Hr). discriminate.
    - intros r d Hr Hj Hrok. specialize (Hok r d Hr Hj Hrok). discriminate.
    - intros r d Hr Hj Hrok Hd. specialize (Hhttp r d Hr Hj Hrok Hd).
      destruct (http_error_message d (resp_status r)) as [msg | e];
        injection Hhttp as ->; [| reflexivity].
      unfold res_json, status_or_500, js_or. simpl.
      now destruct (resp_status r =? 0).
    - intros e Hr. specialize (Hrej e Hr). injection Hrej as ->. reflexivity. }
  destruct route as [| id | id body | id]; simpl;
    unfold get_items, get_item, put_item, delete_item,
      getItems, getItem, updateItem, deleteItem.
  - destruct (Hall "/api/items" no_options) as (reply & Hrun & H).
    exists reply, (request_config sdk "/api/items" no_options).
    split; [exact Hrun | exact H].
  - destruct (Hall ("/api/items/" +:+ id) no_options) as (reply & Hrun & H).
    exists reply, (request_config sdk ("/api/items/" +:+ id) no_options).
    split; [exact Hrun | exact H].
  - destruct (Hall ("/api/items/" +:+ id)
                {| opt_method := Some "PUT"; opt_headers := None;
                   opt_body := JSON_stringify body |}) as (reply & Hrun & H).
    exists reply, (request_config sdk ("/api/items/" +:+ id)
                     {| opt_method := Some "PUT"; opt_headers := None;
                        opt_body := JSON_stringify body |}).
    split; [exact Hrun | exact H].
  - destruct (Hall ("/api/items/" +:+ id)
                {| opt_method := Some "DELETE"; opt_headers := None;
                   opt_body := None |}) as (reply & Hrun & H).
    exists reply, (request_config sdk ("/api/items/" +:+ id)
                     {| opt_method := Some "DELETE"; opt_headers := None;
                        opt_body := None |}).
    split; [exact Hrun | exact H].
Qed.

Lemma item_routes_status_witness :
  fst (handle_item_route backend_hello example_sdk (RouteGetItem "7")
         empty_world) = Normal (res_json 200 (VObj [("reply", VStr "hello")])) /\
  fst (handle_item_route backend_not_found example_sdk (RouteDeleteItem "7")
         empty_world) = Normal (res_json 404 (VObj [("error", VStr "not found")])) /\
  fst (handle_item_route backend_down example_sdk RouteGetItems empty_world) =
    Normal (res_json 500 (VObj [("error", VStr "fetch failed")])).
Proof.
  split; [| split].
  - destruct (item_routes_status backend_hello example_sdk (RouteGetItem "7")
                empty_world) as (reply & rq & Hrun & Hok & _).
    rewrite Hrun. simpl. f_equal. exact (Hok _ _ eq_refl eq_refl eq_refl).
  - destruct (item_routes_status backend_not_found example_sdk
                (RouteDeleteItem "7") empty_world)
      as (reply & rq & Hrun & _ & Hhttp & _).
    rewrite Hrun. simpl. f_equal.
    exact (Hhttp _ _ eq_refl eq_refl eq_refl eq_refl).
  - destruct (item_routes_status backend_down example_sdk RouteGetItems
                empty_world) as (reply & rq & Hrun & _ & _ & Hrej).
    rewrite Hrun. simpl. f_equal. exact (Hrej _ eq_refl).
Defined.
